(** * Register-level HAL for the ATmega328P: a shallow embedding

    The development follows the headers under [sw/include]:
    - [m328p_Atomic.h]   : the interrupt guard [Atomic];
    - [m328p_Timer0.h], [m328p_Timer1.h], [m328p_Timer2.h] : the split
      waveform-generation-mode selectors [WGM];
    - [m328p_USART0.h]   : the baud-rate helpers and [USART0::init];
    - [m328p_EEPROM.h]   : the single-byte EEMEM interface;
    - [m328p_GPIO.h]     : [GPIOSubPort].

    Integers are [Z] with the wrap-around of avr-gcc written out
    ([int] is 16 bits wide, [uint32_t] is [unsigned long]).  The register
    file is a total function from register names to their contents. *)

From Stdlib Require Import ZArith Lia Bool.
From stdpp Require Import base decidable option list functions.

Local Open Scope Z_scope.

(** ** Fixed-width unsigned arithmetic *)

Module CInt.

(** Reduction of a mathematical integer to a [w]-bit unsigned object. *)
Definition wrap (w x : Z) : Z := x mod 2 ^ w.

Definition u8  : Z -> Z := wrap 8.
Definition u16 : Z -> Z := wrap 16.
Definition u32 : Z -> Z := wrap 32.

(** avr-gcc: [unsigned int] has 16 bits.  [uint16_t] is [unsigned int],
    so an operation between a [uint16_t] and an [int] literal is carried
    out on 16 bits. *)
Definition int_bits : Z := 16.
Definition uint : Z -> Z := wrap int_bits.

(** Unsigned division; a zero divisor has no defined result. *)
Definition udiv (x y : Z) : option Z :=
  if y =? 0 then None else Some (x / y).

(** [_BV(bit)] of avr-libc. *)
Definition _BV (bit : Z) : Z := Z.shiftl 1 bit.

(** Conversion of an integer to [bool]. *)
Definition to_bool (x : Z) : bool := negb (x =? 0).

End CInt.
Import CInt.

(** ** The register file *)

Inductive Reg : Set :=
| SREG
| TCCR0A | TCCR0B
| TCCR1A | TCCR1B
| TCCR2A | TCCR2B
| DDRB | DDRC | DDRD
| UBRR0 | UCSR0A | UCSR0B | UCSR0C.

#[global] Instance Reg_eq_dec : EqDecision Reg.
Proof. solve_decision. Defined.

(** All registers are 8 bits wide except the 16-bit baud-rate register. *)
Definition width (r : Reg) : Z :=
  match r with UBRR0 => 16 | _ => 8 end.

Definition Mem : Type := Reg -> Z.

Definition zero_mem : Mem := fun _ => 0.

(** Bit numbers of the device header [<avr/io.h>] for the ATmega328P. *)
Module Io.
Definition SREG_I : Z := 7.
Definition WGM00 : Z := 0.
Definition WGM01 : Z := 1.
Definition WGM02 : Z := 3.
Definition WGM10 : Z := 0.
Definition WGM11 : Z := 1.
Definition WGM12 : Z := 3.
Definition WGM13 : Z := 4.
Definition WGM20 : Z := 0.
Definition WGM21 : Z := 1.
Definition WGM22 : Z := 3.
Definition U2X0 : Z := 1.
Definition RXCIE0 : Z := 7.
Definition TXCIE0 : Z := 6.
Definition UDRIE0 : Z := 5.
Definition RXEN0 : Z := 4.
Definition TXEN0 : Z := 3.
Definition UMSEL00 : Z := 6.
Definition UMSEL01 : Z := 7.
Definition UPM00 : Z := 4.
Definition UPM01 : Z := 5.
Definition USBS0 : Z := 3.
Definition UCSZ00 : Z := 1.
Definition UCSZ01 : Z := 2.
Definition UCPOL0 : Z := 0.
End Io.

(** Modelled from the spec: the register accessor of [register_access.h]
  (RegisterView, section 4.1).  [read] returns the raw contents; [write]
  stores exactly the value, converted to the register's width, with no
  merge of the previous contents. *)
Module Register.
Definition read (r : Reg) (m : Mem) : Z := m r.
Definition write (r : Reg) (v : Z) (m : Mem) : Mem :=
  <[ r := wrap (width r) v ]> m.
End Register.

(** Modelled from the spec: [BitInRegister] of [register_access.h]
  (BitField, section 4.2).  [read] is true iff the addressed bit is 1;
  [set] and [clear] are read-modify-write operations that force the bit
  and alter no other bit; [write] dispatches to [set] or [clear]. *)
Module BitInRegister.
Definition read (r : Reg) (bit : Z) (m : Mem) : bool :=
  Z.testbit (Register.read r m) bit.
Definition set (r : Reg) (bit : Z) (m : Mem) : Mem :=
  Register.write r (Z.lor (Register.read r m) (_BV bit)) m.
Definition clear (r : Reg) (bit : Z) (m : Mem) : Mem :=
  Register.write r (Z.land (Register.read r m) (Z.lnot (_BV bit))) m.
Definition write (r : Reg) (bit : Z) (v : bool) (m : Mem) : Mem :=
  if v then set r bit m else clear r bit m.
End BitInRegister.

(** Modelled from the spec: [BitGroupInRegister] of [register_access.h]
  (BitGroupField, section 4.3).  [write] reads the register, clears
  exactly the bits in [[lo,hi]], ORs in the value's bits shifted to [lo]
  and writes the result back; [read] masks the bits [[lo,hi]] and shifts
  them down to position 0. *)
Module BitGroupInRegister.
Definition bitMask (lo hi : Z) : Z := Z.shiftl (Z.ones (hi - lo + 1)) lo.
Definition read (r : Reg) (lo hi : Z) (m : Mem) : Z :=
  Z.shiftr (Z.land (Register.read r m) (bitMask lo hi)) lo.
Definition write (r : Reg) (lo hi : Z) (v : Z) (m : Mem) : Mem :=
  Register.write r
    (Z.lor (Z.land (Register.read r m) (Z.lnot (bitMask lo hi)))
           (Z.shiftl v lo)) m.
End BitGroupInRegister.

(** ** [m328p_Atomic.h] *)

(** [cli()] of avr-libc: clears the global interrupt-enable flag of SREG
  and nothing else. *)
Definition cli (m : Mem) : Mem :=
  BitInRegister.clear SREG Io.SREG_I m.

(** The global interrupt-enable flag as the hardware sees it. *)
Definition interrupts_enabled (m : Mem) : bool :=
  Z.testbit (m SREG) Io.SREG_I.

Module Atomic.

Record t : Set := { m_SREG : Z }.

(** [Atomic() : m_SREG(SREG::read() & _BV(SREG_I)) { cli(); }] *)
Definition ctor (m : Mem) : t * Mem :=
  ({| m_SREG := u8 (Z.land (Register.read SREG m) (_BV Io.SREG_I)) |},
   cli m).

(** [~Atomic() { SREG::write(SREG::read() | m_SREG); }] *)
Definition dtor (a : t) (m : Mem) : Mem :=
  Register.write SREG (Z.lor (Register.read SREG m) (m_SREG a)) m.

(** Two nested guards around nothing: the states after the inner and
    after the outer release. *)
Definition nested2 (m : Mem) : Mem * Mem :=
  let '(outer, m1) := ctor m in
  let '(inner, m2) := ctor m1 in
  let m3 := dtor inner m2 in
  let m4 := dtor outer m3 in
  (m3, m4).

(** One guard around nothing. *)
Definition single (m : Mem) : Mem :=
  let '(a, m1) := ctor m in dtor a m1.

End Atomic.

(** ** [m328p_Timer0.h], [m328p_Timer1.h], [m328p_Timer2.h]

  An [enum class X : uint8_t] is carried by its underlying 8-bit value:
  [static_cast] between the two is the identity on that value, and
  [read] may return a value that is not a named enumerator. *)

Module Timer0.

Inductive WaveformGenerationMode : Set :=
  | NORMAL | PWM_PHASE_CORRECT_1 | CTC | PWM_FAST_1
  | PWM_PHASE_CORRECT_2 | PWM_FAST_2.

Definition to_u8 (w : WaveformGenerationMode) : Z :=
  match w with
  | NORMAL => 0
  | PWM_PHASE_CORRECT_1 => 1
  | CTC => 2
  | PWM_FAST_1 => 3
  | PWM_PHASE_CORRECT_2 => 5
  | PWM_FAST_2 => 7
  end.

Module WGM.
Definition write (waveformGenerationMode : Z) (m : Mem) : Mem :=
    let m := BitGroupInRegister.write TCCR0A Io.WGM00 Io.WGM01
               (u8 (Z.land (u8 waveformGenerationMode) 3)) m in
    BitInRegister.write TCCR0B Io.WGM02
      (to_bool (Z.land (u8 waveformGenerationMode) 4)) m.

Definition read (m : Mem) : Z :=
    let waveformGenerationMode :=
      u8 (BitGroupInRegister.read TCCR0A Io.WGM00 Io.WGM01 m) in
    if BitInRegister.read TCCR0B Io.WGM02 m
    then u8 (Z.lor waveformGenerationMode 4)
    else waveformGenerationMode.
End WGM.

End Timer0.

Module Timer1.

Inductive WaveformGenerationMode : Set :=
  | NORMAL
  | PWM_PHASE_CORRECT_8BIT | PWM_PHASE_CORRECT_9BIT | PWM_PHASE_CORRECT_10BIT
  | CTC_1
  | PWM_FAST_CORRECT_8BIT | PWM_FAST_CORRECT_9BIT | PWM_FAST_CORRECT_10BIT
  | PWM_PHASE_CORRECT_FREQ_1 | PWM_PHASE_CORRECT_FREQ_2
  | PWM_PHASE_CORRECT_1 | PWM_PHASE_CORRECT_2
  | CTC_2
  | PWM_FAST_1 | PWM_FAST_2.

Definition to_u8 (w : WaveformGenerationMode) : Z :=
  match w with
  | NORMAL => 0
  | PWM_PHASE_CORRECT_8BIT => 1
  | PWM_PHASE_CORRECT_9BIT => 2
  | PWM_PHASE_CORRECT_10BIT => 3
  | CTC_1 => 4
  | PWM_FAST_CORRECT_8BIT => 5
  | PWM_FAST_CORRECT_9BIT => 6
  | PWM_FAST_CORRECT_10BIT => 7
  | PWM_PHASE_CORRECT_FREQ_1 => 8
  | PWM_PHASE_CORRECT_FREQ_2 => 9
  | PWM_PHASE_CORRECT_1 => 10
  | PWM_PHASE_CORRECT_2 => 11
  | CTC_2 => 12
  | PWM_FAST_1 => 14
  | PWM_FAST_2 => 15
  end.

Module WGM.
Definition write (waveformGenerationMode : Z) (m : Mem) : Mem :=
    let m := BitGroupInRegister.write TCCR1A Io.WGM10 Io.WGM11
               (u8 (Z.land (u8 waveformGenerationMode) 3)) m in
    BitGroupInRegister.write TCCR1B Io.WGM12 Io.WGM13
      (u8 (Z.shiftl (Z.land (u8 waveformGenerationMode) 3) 2)) m.

Definition read (m : Mem) : Z :=
    let waveformGenerationMode :=
      u8 (Z.shiftl (BitGroupInRegister.read TCCR1B Io.WGM12 Io.WGM13 m) 2) in
    u8 (Z.lor waveformGenerationMode
              (BitGroupInRegister.read TCCR1A Io.WGM10 Io.WGM11 m)).
End WGM.

End Timer1.

Module Timer2.

Inductive WaveformGenerationMode : Set :=
  | NORMAL | PWM_PHASE_CORRECT_1 | CTC | PWM_FAST_1
  | PWM_PHASE_CORRECT_2 | PWM_FAST_2.

Definition to_u8 (w : WaveformGenerationMode) : Z :=
  match w with
  | NORMAL => 0
  | PWM_PHASE_CORRECT_1 => 1
  | CTC => 2
  | PWM_FAST_1 => 3
  | PWM_PHASE_CORRECT_2 => 5
  | PWM_FAST_2 => 7
  end.

Module WGM.
Definition write (waveformGenerationMode : Z) (m : Mem) : Mem :=
    let m := BitGroupInRegister.write TCCR2A Io.WGM20 Io.WGM21
               (u8 (Z.land (u8 waveformGenerationMode) 3)) m in
    BitInRegister.write TCCR2B Io.WGM22
      (to_bool (Z.land (u8 waveformGenerationMode) 4)) m.

Definition read (m : Mem) : Z :=
    let waveformGenerationMode :=
      u8 (BitGroupInRegister.read TCCR2A Io.WGM20 Io.WGM21 m) in
    if BitInRegister.read TCCR2B Io.WGM22 m
    then u8 (Z.lor waveformGenerationMode 4)
    else waveformGenerationMode.
End WGM.

End Timer2.

(** ** [m328p_USART0.h] *)

Module USART0.

(** [(clock + baudRate * 8) / (baudRate * 16) - 1], computed on
    [uint32_t] and returned as [uint16_t]. *)
Definition getUBRRValueSingleSpeed (clock baudRate : Z) : option Z :=
  q ← udiv (u32 (clock + u32 (baudRate * 8))) (u32 (baudRate * 16));
  Some (u16 (u32 (q - 1))).

(** [(clock + baudRate * 8) / (baudRate * 8) - 1]. *)
Definition getUBRRValueDoubleSpeed (clock baudRate : Z) : option Z :=
  q ← udiv (u32 (clock + u32 (baudRate * 8))) (u32 (baudRate * 8));
  Some (u16 (u32 (q - 1))).

(** [clock / (16 * (getUBRRValueSingleSpeed(clock, baudRate) + 1))]:
    the divisor is formed on [unsigned int] before it meets [clock]. *)
Definition getRealBaudRateSingleSpeed (clock baudRate : Z) : option Z :=
  n ← getUBRRValueSingleSpeed clock baudRate;
  udiv clock (uint (16 * uint (n + 1))).

Definition getRealBaudRateDoubleSpeed (clock baudRate : Z) : option Z :=
  n ← getUBRRValueDoubleSpeed clock baudRate;
  udiv clock (uint (8 * uint (n + 1))).

Definition getBaudRateErrorSingleSpeed (clock baudRate : Z) : option Z :=
  real ← getRealBaudRateSingleSpeed clock baudRate;
  if baudRate <? real then
    q ← udiv (u32 (real * 1000)) baudRate; Some (u32 (q - 1000))
  else
    q ← udiv (u32 (baudRate * 1000)) real; Some (u32 (q - 1000)).

Definition getBaudRateErrorDoubleSpeed (clock baudRate : Z) : option Z :=
  real ← getRealBaudRateDoubleSpeed clock baudRate;
  if baudRate <? real then
    q ← udiv (u32 (real * 1000)) baudRate; Some (u32 (q - 1000))
  else
    q ← udiv (u32 (baudRate * 1000)) real; Some (u32 (q - 1000)).

Definition getDoubleSpeed (clock baudRate : Z) : option bool :=
  d ← getBaudRateErrorDoubleSpeed clock baudRate;
  s ← getBaudRateErrorSingleSpeed clock baudRate;
  Some (d <? s).

Definition getUBRRValue (clock baudRate : Z) : option Z :=
  ds ← getDoubleSpeed clock baudRate;
  if ds : bool
  then getUBRRValueDoubleSpeed clock baudRate
  else getUBRRValueSingleSpeed clock baudRate.

(** The frame-format arguments of [init]; the enumerations travel as
    their underlying values. *)
Record Config : Set := {
  txEnabled : bool;
  txInterruptEnabled : bool;
  UDREInterruptEnabled : bool;
  rxEnabled : bool;
  rxInterruptEnabled : bool;
  mode : Z;
  characterSize : Z;
  parity : Z;
  stopBits : Z;
  clockPolarity : Z
  }.

Definition init (cpuClock baudRate : Z) (c : Config) (m : Mem)
  : option Mem :=
  ubrr ← getUBRRValue cpuClock baudRate;
  let m := Register.write UBRR0 ubrr m in
  ds ← getDoubleSpeed cpuClock baudRate;
  let m := BitInRegister.write UCSR0A Io.U2X0 ds m in
  let m := BitInRegister.write UCSR0B Io.RXCIE0 (rxInterruptEnabled c) m in
  let m := BitInRegister.write UCSR0B Io.TXCIE0 (txInterruptEnabled c) m in
  let m := BitInRegister.write UCSR0B Io.UDRIE0 (UDREInterruptEnabled c) m in
  let m := BitInRegister.write UCSR0B Io.RXEN0 (rxEnabled c) m in
  let m := BitInRegister.write UCSR0B Io.TXEN0 (txEnabled c) m in
  let m := BitGroupInRegister.write UCSR0C Io.UMSEL00 Io.UMSEL01 (mode c) m in
  let m := BitGroupInRegister.write UCSR0C Io.UPM00 Io.UPM01 (parity c) m in
  let m := BitGroupInRegister.write UCSR0C Io.USBS0 Io.USBS0 (stopBits c) m in
  let m := BitGroupInRegister.write UCSR0C Io.UCSZ00 Io.UCSZ01
             (characterSize c) m in
  let m := BitGroupInRegister.write UCSR0C Io.UCPOL0 Io.UCPOL0
             (clockPolarity c) m in
  Some m.

(** The divisor as section 4.6 of the specification words it:
    [(F + B*ticks/2) / (B*ticks) - 1], in exact integer arithmetic. *)
Definition spec_divisor (ticks F B : Z) : Z :=
  (F + B * ticks / 2) / (B * ticks) - 1.

(** The achieved rate as the specification words it. *)
Definition spec_achieved (ticks F N : Z) : Z := F / (ticks * (N + 1)).

(** The relative error as the specification words it, in exact integer
    arithmetic. *)
Definition spec_error (achieved requested : Z) : Z :=
  if requested <? achieved
  then achieved * 1000 / requested - 1000
  else requested * 1000 / achieved - 1000.

End USART0.

(** ** [m328p_EEPROM.h] *)

Module EEPROM.

Definition capacity : Z := 1024.

(** [auiBuffer + (offset & (capacity()-1))]: the result is given as the
    index into [auiBuffer]. *)
Definition getBufferPointer (offset : Z) : Z :=
  Z.land offset (capacity - 1).

(** [eeprom_write_byte] and [eeprom_read_byte] of avr-libc on the
    buffer, with the bounds of the buffer made explicit: an index outside
    the buffer is not an access to it. *)
Definition eeprom_write_byte (idx data : Z) (buf : list Z)
  : option (list Z) :=
  if decide (0 <= idx < Z.of_nat (length buf))
  then Some (<[ Z.to_nat idx := data ]> buf)
  else None.

Definition eeprom_read_byte (idx : Z) (buf : list Z) : option Z :=
  if decide (0 <= idx) then buf !! Z.to_nat idx else None.

Definition write (pos data : Z) (buf : list Z) : option (list Z) :=
  eeprom_write_byte (getBufferPointer pos) data buf.

Definition read (pos : Z) (buf : list Z) : option Z :=
  eeprom_read_byte (getBufferPointer pos) buf.

End EEPROM.

(** ** [m328p_GPIO.h] *)

Module GPIO.

Inductive Port : Set := B | C | D.

(** [GPIORegisterAccess<t_port>::DDR] *)
Definition DDR (p : Port) : Reg :=
  match p with B => DDRB | C => DDRC | D => DDRD end.

Module GPIOSubPort.
(** [DDR::write(0)] on
      [BitGroupInRegister<DDR, t_firstPin, t_lastPin>]. *)
Definition setAsInput (t_port : Port) (t_firstPin t_lastPin : Z)
    (m : Mem) : Mem :=
    BitGroupInRegister.write (DDR t_port) t_firstPin t_lastPin 0 m.

(** [DDR::write(0xFF)]. *)
Definition setAsOutput (t_port : Port) (t_firstPin t_lastPin : Z)
    (m : Mem) : Mem :=
    BitGroupInRegister.write (DDR t_port) t_firstPin t_lastPin 255 m.

Definition getNofPins (t_firstPin t_lastPin : Z) : Z :=
    u8 (t_lastPin - t_firstPin + 1).
End GPIOSubPort.

End GPIO.


(** ** Statements of the specification that are compared with the code *)

(** A register file whose SREG has only the interrupt-enable flag set. *)
Definition sreg_I_only : Mem := <[ SREG := 128 ]> zero_mem.

(** "Destroying an Atomic restores the snapshot's interrupt-enable bit":
    the flag after the release equals the flag at construction, whatever
    SREG holds just before the release. *)
Definition dtor_restores_snapshot (at_ctor before_dtor : Mem) : Prop :=
  interrupts_enabled
    (Atomic.dtor (fst (Atomic.ctor at_ctor)) before_dtor)
  = interrupts_enabled at_ctor.

(** "The computed error equals achieved*1000/requested - 1000 when
    achieved > requested and requested*1000/achieved - 1000 otherwise, a
    non-negative magnitude, whenever the achieved rate is defined", for the
    helper pair [real], [err] of one sampling mode. *)
Definition error_is_spec_error (real err : Z -> Z -> option Z) (F B : Z)
  : Prop :=
  forall a, real F B = Some a ->
    err F B = Some (USART0.spec_error a B) /\ 0 <= USART0.spec_error a B.

(** "A (divisor, speed-flag) pair is always returned." *)
Definition solver_returns_pair (F B : Z) : Prop :=
  exists n ds,
    USART0.getUBRRValue F B = Some n /\ USART0.getDoubleSpeed F B = Some ds.

(** The value range of [uint32_t]. *)
Definition is_uint32 (x : Z) : Prop := 0 <= x < 2 ^ 32.

(** ** Further code of the same headers *)

(** More bit numbers of the device header [<avr/io.h>]. *)
Module IoExt.
Definition CS00 : Z := 0.
Definition CS02 : Z := 2.
Definition COM0B0 : Z := 4.
Definition COM0B1 : Z := 5.
Definition COM0A0 : Z := 6.
Definition COM0A1 : Z := 7.
Definition CS10 : Z := 0.
Definition CS12 : Z := 2.
Definition COM1B0 : Z := 4.
Definition COM1B1 : Z := 5.
Definition COM1A0 : Z := 6.
Definition COM1A1 : Z := 7.
Definition CS20 : Z := 0.
Definition CS22 : Z := 2.
Definition COM2B0 : Z := 4.
Definition COM2B1 : Z := 5.
Definition COM2A0 : Z := 6.
Definition COM2A1 : Z := 7.
End IoExt.

(** [Timer0::init] with the bit groups [CS], [COMA], [COMB] it writes. *)
Module Timer0Driver.
Module CS.
Definition read (m : Mem) : Z :=
  BitGroupInRegister.read TCCR0B IoExt.CS00 IoExt.CS02 m.
Definition write (v : Z) (m : Mem) : Mem :=
  BitGroupInRegister.write TCCR0B IoExt.CS00 IoExt.CS02 v m.
End CS.
Module COMA.
Definition read (m : Mem) : Z :=
  BitGroupInRegister.read TCCR0A IoExt.COM0A0 IoExt.COM0A1 m.
Definition write (v : Z) (m : Mem) : Mem :=
  BitGroupInRegister.write TCCR0A IoExt.COM0A0 IoExt.COM0A1 v m.
End COMA.
Module COMB.
Definition read (m : Mem) : Z :=
  BitGroupInRegister.read TCCR0A IoExt.COM0B0 IoExt.COM0B1 m.
Definition write (v : Z) (m : Mem) : Mem :=
  BitGroupInRegister.write TCCR0A IoExt.COM0B0 IoExt.COM0B1 v m.
End COMB.
Definition init
  (waveformGenerationMode clockSelect compareOutputModeA compareOutputModeB : Z)
  (m : Mem) : Mem :=
  let m := Timer0.WGM.write waveformGenerationMode m in
  let m := CS.write clockSelect m in
  let m := COMA.write compareOutputModeA m in
  COMB.write compareOutputModeB m.
End Timer0Driver.

(** [Timer1::init]. *)
Module Timer1Driver.
Module CS.
Definition read (m : Mem) : Z :=
  BitGroupInRegister.read TCCR1B IoExt.CS10 IoExt.CS12 m.
Definition write (v : Z) (m : Mem) : Mem :=
  BitGroupInRegister.write TCCR1B IoExt.CS10 IoExt.CS12 v m.
End CS.
Module COMA.
Definition read (m : Mem) : Z :=
  BitGroupInRegister.read TCCR1A IoExt.COM1A0 IoExt.COM1A1 m.
Definition write (v : Z) (m : Mem) : Mem :=
  BitGroupInRegister.write TCCR1A IoExt.COM1A0 IoExt.COM1A1 v m.
End COMA.
Module COMB.
Definition read (m : Mem) : Z :=
  BitGroupInRegister.read TCCR1A IoExt.COM1B0 IoExt.COM1B1 m.
Definition write (v : Z) (m : Mem) : Mem :=
  BitGroupInRegister.write TCCR1A IoExt.COM1B0 IoExt.COM1B1 v m.
End COMB.
Definition init
  (waveformGenerationMode clockSelect compareOutputModeA compareOutputModeB : Z)
  (m : Mem) : Mem :=
  let m := Timer1.WGM.write waveformGenerationMode m in
  let m := CS.write clockSelect m in
  let m := COMA.write compareOutputModeA m in
  COMB.write compareOutputModeB m.
End Timer1Driver.

(** [Timer2::init]. *)
Module Timer2Driver.
Module CS.
Definition read (m : Mem) : Z :=
  BitGroupInRegister.read TCCR2B IoExt.CS20 IoExt.CS22 m.
Definition write (v : Z) (m : Mem) : Mem :=
  BitGroupInRegister.write TCCR2B IoExt.CS20 IoExt.CS22 v m.
End CS.
Module COMA.
Definition read (m : Mem) : Z :=
  BitGroupInRegister.read TCCR2A IoExt.COM2A0 IoExt.COM2A1 m.
Definition write (v : Z) (m : Mem) : Mem :=
  BitGroupInRegister.write TCCR2A IoExt.COM2A0 IoExt.COM2A1 v m.
End COMA.
Module COMB.
Definition read (m : Mem) : Z :=
  BitGroupInRegister.read TCCR2A IoExt.COM2B0 IoExt.COM2B1 m.
Definition write (v : Z) (m : Mem) : Mem :=
  BitGroupInRegister.write TCCR2A IoExt.COM2B0 IoExt.COM2B1 v m.
End COMB.
Definition init
  (waveformGenerationMode clockSelect compareOutputModeA compareOutputModeB : Z)
  (m : Mem) : Mem :=
  let m := Timer2.WGM.write waveformGenerationMode m in
  let m := CS.write clockSelect m in
  let m := COMA.write compareOutputModeA m in
  COMB.write compareOutputModeB m.
End Timer2Driver.

(** The accessors of [USART0] read back, and the transmission switches. *)
Module USART0Driver.
Definition UMSEL_read (m : Mem) : Z :=
  BitGroupInRegister.read UCSR0C Io.UMSEL00 Io.UMSEL01 m.
Definition UPM_read (m : Mem) : Z :=
  BitGroupInRegister.read UCSR0C Io.UPM00 Io.UPM01 m.
Definition USBS_read (m : Mem) : Z :=
  BitGroupInRegister.read UCSR0C Io.USBS0 Io.USBS0 m.
Definition UCSZ_read (m : Mem) : Z :=
  BitGroupInRegister.read UCSR0C Io.UCSZ00 Io.UCSZ01 m.
Definition UCPOL_read (m : Mem) : Z :=
  BitGroupInRegister.read UCSR0C Io.UCPOL0 Io.UCPOL0 m.

(** [enableUDREInterrupt() { UDRIE_Bit::set(); }] *)
Definition enableUDREInterrupt (m : Mem) : Mem :=
  BitInRegister.set UCSR0B Io.UDRIE0 m.
(** [disableUDREInterrupt() { UDRIE_Bit::clear(); }] *)
Definition disableUDREInterrupt (m : Mem) : Mem :=
  BitInRegister.clear UCSR0B Io.UDRIE0 m.
Definition startTransmission (m : Mem) : Mem := enableUDREInterrupt m.
Definition stopTransmission (m : Mem) : Mem := disableUDREInterrupt m.

(** The values of a configuration fit their bit groups. *)
Definition fits (c : USART0.Config) : Prop :=
  0 <= USART0.mode c < 4 /\ 0 <= USART0.parity c < 4
  /\ 0 <= USART0.stopBits c < 2 /\ 0 <= USART0.characterSize c < 4
  /\ 0 <= USART0.clockPolarity c < 2.
End USART0Driver.

(** [GPIOPort], [GPIOPin] and the direction set-up of the GPIO test
    program. *)
Module GPIODriver.
Module GPIOPort.
Definition setAsInput (t_port : GPIO.Port) (m : Mem) : Mem :=
  Register.write (GPIO.DDR t_port) 0 m.
Definition setAsOutput (t_port : GPIO.Port) (m : Mem) : Mem :=
  Register.write (GPIO.DDR t_port) 255 m.
End GPIOPort.
Module GPIOPin.
Definition setAsInput (t_port : GPIO.Port) (t_pinIdx : Z) (m : Mem) : Mem :=
  BitInRegister.clear (GPIO.DDR t_port) t_pinIdx m.
Definition setAsOutput (t_port : GPIO.Port) (t_pinIdx : Z) (m : Mem) : Mem :=
  BitInRegister.set (GPIO.DDR t_port) t_pinIdx m.
End GPIOPin.

(** The six [setAs...] calls at the head of [main] in
    [test/GPIO/GPIO/main.cpp]. *)
Definition test_set_direction (m : Mem) : Mem :=
  let m := GPIOPort.setAsOutput GPIO.B m in
  let m := GPIOPort.setAsInput GPIO.D m in
  let m := GPIO.GPIOSubPort.setAsOutput GPIO.C 0 1 m in
  let m := GPIO.GPIOSubPort.setAsInput GPIO.C 2 3 m in
  let m := GPIOPin.setAsOutput GPIO.C 4 m in
  GPIOPin.setAsInput GPIO.C 5 m.
End GPIODriver.

(** The block interface of [EEPROM]: [eeprom_write_block] and
    [eeprom_read_block] of avr-libc copy [n] consecutive bytes starting at
    the given cell; a block that does not lie inside the buffer, or a
    source shorter than [n], is not an access to them. *)
Module EEPROMBlock.
Definition eeprom_write_block (src : list Z) (idx n : Z) (buf : list Z)
  : option (list Z) :=
  if decide (0 <= idx /\ 0 <= n /\ idx + n <= Z.of_nat (length buf)
             /\ n <= Z.of_nat (length src))
  then Some (list_inserts (Z.to_nat idx) (take (Z.to_nat n) src) buf)
  else None.

Definition eeprom_read_block (idx n : Z) (buf : list Z) : option (list Z) :=
  if decide (0 <= idx /\ 0 <= n /\ idx + n <= Z.of_nat (length buf))
  then Some (take (Z.to_nat n) (drop (Z.to_nat idx) buf))
  else None.

(** [write(pos, data, nofBytes)] *)
Definition write (pos : Z) (data : list Z) (nofBytes : Z) (buf : list Z)
  : option (list Z) :=
  eeprom_write_block data (EEPROM.getBufferPointer pos) nofBytes buf.

(** [read(pos, data, nofBytes)]: the bytes stored to [data]. *)
Definition read (pos nofBytes : Z) (buf : list Z) : option (list Z) :=
  eeprom_read_block (EEPROM.getBufferPointer pos) nofBytes buf.
End EEPROMBlock.

(** Scopes guarded by [Atomic], as in the usage note of the header:
    [{ Atomic atomic; ... }].  [nested n body] wraps [body] in [n] guards;
    [entry n] is the register file in which the body then starts. *)
Module AtomicScope.
Fixpoint nested (n : nat) (body : Mem -> Mem) (m : Mem) : Mem :=
  match n with
  | O => body m
  | S k => let '(a, m1) := Atomic.ctor m in Atomic.dtor a (nested k body m1)
  end.

Fixpoint entry (n : nat) (m : Mem) : Mem :=
  match n with
  | O => m
  | S k => entry k (snd (Atomic.ctor m))
  end.
End AtomicScope.

(** A frame format for examples: transmitter and receiver on, no
    interrupts, asynchronous, 8 data bits, no parity, 1 stop bit. *)
Definition config_8N1 : USART0.Config :=
  USART0.Build_Config true false false true false 0 3 0 0 0.

(** "[getUBRRValue] returns the divisor of the mode selected and [init]
    writes this (divisor, speed-flag) pair to UBRR and the U2X bit." *)
Definition init_writes_selected_pair
  (F B : Z) (c : USART0.Config) (m : Mem) : Prop :=
  exists n ds m',
    USART0.getUBRRValue F B = Some n
    /\ USART0.getDoubleSpeed F B = Some ds
    /\ USART0.init F B c m = Some m'
    /\ Register.read UBRR0 m' = n
    /\ BitInRegister.read UCSR0A Io.U2X0 m' = ds.

(** * Properties *)

(** ** Bits of wrapped values, masks and registers *)

Lemma testbit_wrap (w x i : Z) :
  0 <= w -> Z.testbit (wrap w x) i = (i <? w) && Z.testbit x i.
Proof.
  intros Hw. unfold wrap.
  destruct (Z.ltb_spec i w) as [Hlt | Hge]; simpl.
  - apply Z.mod_pow2_bits_low; assumption.
  - apply Z.mod_pow2_bits_high; lia.
Qed.

Lemma testbit_BV (b i : Z) :
  0 <= b -> Z.testbit (_BV b) i = (i =? b).
Proof.
  intros Hb. unfold _BV. rewrite Z.shiftl_1_l, Z.pow2_bits_eqb by assumption.
  apply Z.eqb_sym.
Qed.

Lemma testbit_bitMask (lo hi i : Z) :
  0 <= lo <= hi -> 0 <= i ->
  Z.testbit (BitGroupInRegister.bitMask lo hi) i = (lo <=? i) && (i <=? hi).
Proof.
  intros Hr Hi. unfold BitGroupInRegister.bitMask.
  rewrite Z.shiftl_spec by assumption.
  rewrite Z.testbit_ones by lia.
  destruct (Z.leb_spec lo i), (Z.leb_spec i hi),
    (Z.leb_spec 0 (i - lo)), (Z.ltb_spec (i - lo) (hi - lo + 1));
    simpl; try reflexivity; lia.
Qed.

Lemma wrap_range (w x : Z) : 0 <= w -> 0 <= wrap w x < 2 ^ w.
Proof. intros Hw. unfold wrap. apply Z.mod_pos_bound. lia. Qed.

Lemma wrap_small (w x : Z) : 0 <= x < 2 ^ w -> wrap w x = x.
Proof. intros Hx. unfold wrap. apply Z.mod_small. assumption. Qed.

Lemma width_nonneg (r : Reg) : 0 <= width r.
Proof. destruct r; simpl; lia. Qed.

Lemma read_write_same (r : Reg) (v : Z) (m : Mem) :
  Register.read r (Register.write r v m) = wrap (width r) v.
Proof. unfold Register.read, Register.write. apply fn_lookup_insert. Qed.

Lemma read_write_other (r r' : Reg) (v : Z) (m : Mem) :
  r <> r' -> Register.read r' (Register.write r v m) = Register.read r' m.
Proof.
  intros Hne. unfold Register.read, Register.write.
  apply fn_lookup_insert_ne. assumption.
Qed.

(** ** BitInRegister: the written bit reads back, the others stay *)

Lemma BitInRegister_write_bits (r : Reg) (b : Z) (v : bool) (m : Mem) (i : Z) :
  0 <= b ->
  Z.testbit (Register.read r (BitInRegister.write r b v m)) i
  = (i <? width r) && (if i =? b then v else Z.testbit (Register.read r m) i).
Proof.
  intros Hb.
  destruct (Z.neg_nonneg_cases i) as [Hi | Hi].
  { rewrite !Z.testbit_neg_r by assumption.
    destruct (i <? width r), (Z.eqb_spec i b), v; simpl; try reflexivity; lia. }
  unfold BitInRegister.write, BitInRegister.set, BitInRegister.clear.
  destruct v; rewrite read_write_same, testbit_wrap by apply width_nonneg;
    f_equal.
  - rewrite Z.lor_spec, testbit_BV by assumption.
    destruct (i =? b); [apply orb_true_r | apply orb_false_r].
  - rewrite Z.land_spec, Z.lnot_spec, testbit_BV by assumption.
    destruct (i =? b); [apply andb_false_r | apply andb_true_r].
Qed.

Lemma BitInRegister_write_other (r r' : Reg) (b : Z) (v : bool) (m : Mem) :
  r <> r' ->
  Register.read r' (BitInRegister.write r b v m) = Register.read r' m.
Proof.
  intros Hne. unfold BitInRegister.write, BitInRegister.set,
    BitInRegister.clear.
  destruct v; apply read_write_other; assumption.
Qed.

Lemma BitInRegister_read_write (r : Reg) (b : Z) (v : bool) (m : Mem) :
  0 <= b < width r ->
  BitInRegister.read r b (BitInRegister.write r b v m) = v.
Proof.
  intros [Hb Hw]. unfold BitInRegister.read.
  rewrite BitInRegister_write_bits by assumption.
  rewrite Z.eqb_refl. destruct (Z.ltb_spec b (width r)); [reflexivity | lia].
Qed.

(** ** BitGroupInRegister: bits after a write *)

Lemma BitGroupInRegister_write_bits
  (r : Reg) (lo hi v : Z) (m : Mem) (i : Z) :
  0 <= lo <= hi -> 0 <= i ->
  Z.testbit (Register.read r (BitGroupInRegister.write r lo hi v m)) i
  = (i <? width r)
    && ((Z.testbit (Register.read r m) i && negb ((lo <=? i) && (i <=? hi)))
        || Z.testbit v (i - lo)).
Proof.
  intros Hr Hi. unfold BitGroupInRegister.write.
  rewrite read_write_same, testbit_wrap by apply width_nonneg.
  rewrite Z.lor_spec, Z.land_spec, Z.lnot_spec by assumption.
  rewrite testbit_bitMask, Z.shiftl_spec by assumption.
  reflexivity.
Qed.

Lemma BitGroupInRegister_write_other
  (r r' : Reg) (lo hi v : Z) (m : Mem) :
  r <> r' ->
  Register.read r' (BitGroupInRegister.write r lo hi v m)
  = Register.read r' m.
Proof. intros Hne. apply read_write_other. assumption. Qed.

Lemma BitGroupInRegister_read_bits (r : Reg) (lo hi : Z) (m : Mem) (i : Z) :
  0 <= lo <= hi -> 0 <= i ->
  Z.testbit (BitGroupInRegister.read r lo hi m) i
  = Z.testbit (Register.read r m) (i + lo) && (i + lo <=? hi).
Proof.
  intros Hr Hi. unfold BitGroupInRegister.read.
  rewrite Z.shiftr_spec, Z.land_spec, testbit_bitMask by lia.
  destruct (Z.leb_spec lo (i + lo)); [reflexivity | lia].
Qed.

(** ** Atomic *)

Lemma interrupts_enabled_cli (m : Mem) : interrupts_enabled (cli m) = false.
Proof.
  unfold interrupts_enabled, cli.
  change (BitInRegister.clear SREG Io.SREG_I m)
    with (BitInRegister.write SREG Io.SREG_I false m).
  change (BitInRegister.write SREG Io.SREG_I false m SREG)
    with (Register.read SREG (BitInRegister.write SREG Io.SREG_I false m)).
  rewrite BitInRegister_write_bits by (unfold Io.SREG_I; lia).
  reflexivity.
Qed.

Lemma cli_other_bits (m : Mem) (i : Z) :
  0 <= i < Io.SREG_I ->
  Z.testbit (Register.read SREG (cli m)) i = Z.testbit (Register.read SREG m) i.
Proof.
  intros Hi. unfold cli. unfold Io.SREG_I in *.
  change (BitInRegister.clear SREG 7 m)
    with (BitInRegister.write SREG 7 false m).
  rewrite BitInRegister_write_bits by lia. simpl width.
  destruct (Z.ltb_spec i 8), (Z.eqb_spec i 7); simpl; try reflexivity; lia.
Qed.

Lemma testbit_snapshot (m : Mem) (i : Z) :
  Z.testbit (Atomic.m_SREG (fst (Atomic.ctor m))) i
  = (i =? Io.SREG_I) && interrupts_enabled m.
Proof.
  unfold Atomic.ctor, interrupts_enabled, u8. cbn [fst Atomic.m_SREG].
  rewrite testbit_wrap, Z.land_spec, testbit_BV by (unfold Io.SREG_I; lia).
  unfold Register.read, Io.SREG_I.
  destruct (Z.eqb_spec i 7) as [-> | Hne].
  - rewrite andb_true_r. reflexivity.
  - rewrite andb_false_r, andb_false_r. reflexivity.
Qed.

Lemma dtor_bits (a : Atomic.t) (m : Mem) (i : Z) :
  Z.testbit (Register.read SREG (Atomic.dtor a m)) i
  = (i <? 8)
    && (Z.testbit (Register.read SREG m) i || Z.testbit (Atomic.m_SREG a) i).
Proof.
  unfold Atomic.dtor.
  rewrite read_write_same, testbit_wrap, Z.lor_spec by (simpl; lia).
  reflexivity.
Qed.

Lemma interrupts_enabled_dtor (a : Atomic.t) (m : Mem) :
  interrupts_enabled (Atomic.dtor a m)
  = interrupts_enabled m || Z.testbit (Atomic.m_SREG a) Io.SREG_I.
Proof.
  unfold interrupts_enabled.
  change (Atomic.dtor a m SREG) with (Register.read SREG (Atomic.dtor a m)).
  rewrite dtor_bits. reflexivity.
Qed.

(** C7. Nesting is safe.  Two nested guards: after the inner release the
    interrupts are still disabled, after the outer one the flag is what it
    was at the start (enabled when the start was enabled).  One guard:
    after the release the flag is what it was at the start (disabled when
    the start was disabled, never forced on).  Within a guard the
    interrupts are disabled. *)
Theorem Atomic_nesting_safe (m : Mem) :
  interrupts_enabled (snd (Atomic.ctor m)) = false
  /\ interrupts_enabled (fst (Atomic.nested2 m)) = false
  /\ interrupts_enabled (snd (Atomic.nested2 m)) = interrupts_enabled m
  /\ interrupts_enabled (Atomic.single m) = interrupts_enabled m.
Proof.
  assert (Hsnap : forall m',
    Z.testbit (Atomic.m_SREG (fst (Atomic.ctor m'))) Io.SREG_I
    = interrupts_enabled m').
  { intros m'. rewrite testbit_snapshot. rewrite Z.eqb_refl. reflexivity. }
  unfold Atomic.nested2, Atomic.single.
  destruct (Atomic.ctor m) as [outer m1] eqn:E1.
  assert (Hm1 : m1 = cli m) by (unfold Atomic.ctor in E1; congruence).
  assert (Houter : Z.testbit (Atomic.m_SREG outer) Io.SREG_I
                   = interrupts_enabled m).
  { rewrite <- Hsnap, E1. reflexivity. }
  destruct (Atomic.ctor m1) as [inner m2] eqn:E2.
  assert (Hm2 : m2 = cli m1) by (unfold Atomic.ctor in E2; congruence).
  assert (Hinner : Z.testbit (Atomic.m_SREG inner) Io.SREG_I = false).
  { change inner with (fst (inner, m2)). rewrite <- E2, Hsnap, Hm1.
    apply interrupts_enabled_cli. }
  simpl fst; simpl snd.
  assert (H3 : interrupts_enabled (Atomic.dtor inner m2) = false).
  { rewrite interrupts_enabled_dtor, Hinner, Hm2, interrupts_enabled_cli.
    reflexivity. }
  repeat split.
  - rewrite Hm1. apply interrupts_enabled_cli.
  - exact H3.
  - rewrite interrupts_enabled_dtor, H3, Houter. reflexivity.
  - rewrite interrupts_enabled_dtor, Houter, Hm1, interrupts_enabled_cli.
    reflexivity.
Qed.

(** The two scenarios of the nesting property on concrete register
    files. *)
Example Atomic_nesting_from_enabled :
  interrupts_enabled sreg_I_only = true
  /\ interrupts_enabled (fst (Atomic.nested2 sreg_I_only)) = false
  /\ interrupts_enabled (snd (Atomic.nested2 sreg_I_only)) = true.
Proof. repeat split. Qed.

Example Atomic_single_from_disabled :
  interrupts_enabled zero_mem = false
  /\ interrupts_enabled (Atomic.single zero_mem) = false.
Proof. repeat split. Qed.

(** C8, as stated, fails: a guard constructed with the interrupts disabled
    and released when SREG has the flag set leaves the flag set, which is
    not the snapshot's value. *)
Lemma Atomic_dtor_does_not_clear :
  ~ dtor_restores_snapshot zero_mem sreg_I_only.
Proof. unfold dtor_restores_snapshot. vm_compute. discriminate. Qed.

(** C8, amended.  The release ORs the snapshot's interrupt-enable bit into
    SREG: each of the seven other bits of SREG keeps the value it had just
    before the release, no other register changes, and the flag after the
    release is the snapshot's flag or the flag just before the release;
    so the snapshot's flag is restored whenever the flag is still clear
    just before the release. *)
Theorem Atomic_dtor_frame (at_ctor before_dtor : Mem) :
  let a := fst (Atomic.ctor at_ctor) in
  let after := Atomic.dtor a before_dtor in
  (forall i, 0 <= i < Io.SREG_I ->
     Z.testbit (Register.read SREG after) i
     = Z.testbit (Register.read SREG before_dtor) i)
  /\ (forall r, r <> SREG -> Register.read r after = Register.read r before_dtor)
  /\ interrupts_enabled after
     = interrupts_enabled at_ctor || interrupts_enabled before_dtor
  /\ (interrupts_enabled before_dtor = false ->
      dtor_restores_snapshot at_ctor before_dtor).
Proof.
  intros a after.
  assert (Hflag : interrupts_enabled after
                  = interrupts_enabled at_ctor || interrupts_enabled before_dtor).
  { unfold after, a. rewrite interrupts_enabled_dtor, testbit_snapshot.
    rewrite Z.eqb_refl. simpl. apply orb_comm. }
  split; [| split; [| split]].
  - intros i Hi. unfold after, a. unfold Io.SREG_I in Hi.
    rewrite dtor_bits, testbit_snapshot.
    destruct (Z.ltb_spec i 8), (Z.eqb_spec i Io.SREG_I);
      unfold Io.SREG_I in *; try lia.
    simpl. apply orb_false_r.
  - intros r Hr. unfold after, Atomic.dtor. apply read_write_other. congruence.
  - exact Hflag.
  - intros Hoff. unfold dtor_restores_snapshot. fold a. fold after.
    rewrite Hflag, Hoff. apply orb_false_r.
Qed.

Lemma Atomic_dtor_frame_witness :
  Z.testbit (Register.read SREG
    (Atomic.dtor (fst (Atomic.ctor sreg_I_only)) zero_mem)) 0
  = Z.testbit (Register.read SREG zero_mem) 0
  /\ Register.read TCCR0A
       (Atomic.dtor (fst (Atomic.ctor sreg_I_only)) zero_mem)
     = Register.read TCCR0A zero_mem
  /\ dtor_restores_snapshot sreg_I_only zero_mem.
Proof.
  destruct (Atomic_dtor_frame sreg_I_only zero_mem) as (Hbits & Hregs & _ & Hres).
  split; [| split].
  - apply (Hbits 0). unfold Io.SREG_I. lia.
  - apply (Hregs TCCR0A). discriminate.
  - apply Hres. reflexivity.
Defined.

(** ** BitGroupInRegister: read after write, and the frame *)

Lemma BitGroupInRegister_read_ext (r : Reg) (lo hi : Z) (m m' : Mem) :
  Register.read r m = Register.read r m' ->
  BitGroupInRegister.read r lo hi m = BitGroupInRegister.read r lo hi m'.
Proof. unfold BitGroupInRegister.read. intros ->. reflexivity. Qed.

(** Only the low [hi - lo + 1] bits of the written value are read back. *)
Lemma BitGroupInRegister_read_write (r : Reg) (lo hi v : Z) (m : Mem) :
  0 <= lo <= hi -> hi < width r ->
  BitGroupInRegister.read r lo hi (BitGroupInRegister.write r lo hi v m)
  = Z.land v (Z.ones (hi - lo + 1)).
Proof.
  intros Hr Hw. apply Z.bits_inj'. intros i Hi.
  rewrite BitGroupInRegister_read_bits by assumption.
  rewrite BitGroupInRegister_write_bits by lia.
  rewrite Z.land_spec, Z.testbit_ones_nonneg by lia.
  replace (i + lo - lo) with i by lia.
  destruct (Z.leb_spec (i + lo) hi), (Z.ltb_spec i (hi - lo + 1)); try lia.
  - destruct (Z.ltb_spec (i + lo) (width r)), (Z.leb_spec lo (i + lo));
      try lia.
    simpl. rewrite andb_false_r, !andb_true_r. reflexivity.
Qed.

Lemma BitGroupInRegister_read_write_representable
  (r : Reg) (lo hi v : Z) (m : Mem) :
  0 <= lo <= hi -> hi < width r -> 0 <= v < 2 ^ (hi - lo + 1) ->
  BitGroupInRegister.read r lo hi (BitGroupInRegister.write r lo hi v m) = v.
Proof.
  intros Hr Hw Hv. rewrite BitGroupInRegister_read_write by assumption.
  rewrite Z.land_ones by lia. apply Z.mod_small. assumption.
Qed.

(** Bits outside the field are kept when the value fits the field. *)
Lemma BitGroupInRegister_write_frame
  (r : Reg) (lo hi v : Z) (m : Mem) (i : Z) :
  0 <= lo <= hi -> 0 <= v < 2 ^ (hi - lo + 1) ->
  0 <= i < width r -> ~ lo <= i <= hi ->
  Z.testbit (Register.read r (BitGroupInRegister.write r lo hi v m)) i
  = Z.testbit (Register.read r m) i.
Proof.
  intros Hr Hv Hi Hout.
  rewrite BitGroupInRegister_write_bits by lia.
  assert (Hvb : Z.testbit v (i - lo) = false).
  { destruct (Z.lt_ge_cases i lo) as [Hlt | Hge].
    - apply Z.testbit_neg_r. lia.
    - rewrite <- (Z.mod_small v (2 ^ (hi - lo + 1))) by assumption.
      apply Z.mod_pow2_bits_high. lia. }
  rewrite Hvb, orb_false_r.
  destruct (Z.ltb_spec i (width r)); [| lia].
  destruct (Z.leb_spec lo i), (Z.leb_spec i hi); simpl;
    try (rewrite andb_true_r; reflexivity); lia.
Qed.

(** ** The waveform-generation-mode selectors *)

Lemma land_u8_small (v k : Z) :
  0 <= k < 256 -> Z.land (u8 v) k = Z.land v k.
Proof.
  intros Hk. apply Z.bits_inj'. intros i Hi.
  rewrite !Z.land_spec. unfold u8. rewrite testbit_wrap by lia.
  destruct (Z.ltb_spec i 8); simpl; [reflexivity |].
  assert (Hkb : Z.testbit k i = false).
  { rewrite <- (Z.mod_small k (2 ^ 8)) by (simpl; lia).
    apply Z.mod_pow2_bits_high. lia. }
  rewrite Hkb, andb_false_r. reflexivity.
Qed.

Lemma land_3_mod (v : Z) : Z.land v 3 = v mod 4.
Proof. change 3 with (Z.ones 2). rewrite Z.land_ones by lia. reflexivity. Qed.

Lemma low2_written_value (v : Z) :
  Z.land (u8 (Z.land (u8 v) 3)) (Z.ones (1 - 0 + 1)) = v mod 4.
Proof.
  rewrite (land_u8_small v 3) by lia. rewrite (land_3_mod v).
  assert (Hr : 0 <= v mod 4 < 4) by (apply Z.mod_pos_bound; lia).
  unfold u8. rewrite wrap_small by (change (2 ^ 8) with 256; lia).
  rewrite Z.land_ones by lia. apply Z.mod_small.
  change (2 ^ (1 - 0 + 1)) with 4. lia.
Qed.

Lemma small_cases (v : Z) :
  0 <= v < 8 ->
  v = 0 \/ v = 1 \/ v = 2 \/ v = 3 \/ v = 4 \/ v = 5 \/ v = 6 \/ v = 7.
Proof. lia. Qed.

(** Timer0: every 3-bit mode value is read back, whatever the registers
    held before. *)
Lemma Timer0_WGM_read_write (v : Z) (m : Mem) :
  0 <= v < 8 -> Timer0.WGM.read (Timer0.WGM.write v m) = v.
Proof.
  intros Hv. unfold Timer0.WGM.read, Timer0.WGM.write.
  unfold Io.WGM00, Io.WGM01, Io.WGM02.
  rewrite BitInRegister_read_write by (simpl; lia).
  rewrite (BitGroupInRegister_read_ext TCCR0A 0 1 _
             (BitGroupInRegister.write TCCR0A 0 1
                (u8 (Z.land (u8 v) 3)) m))
    by (apply BitInRegister_write_other; discriminate).
  rewrite BitGroupInRegister_read_write by (simpl; lia).
  rewrite low2_written_value.
  destruct (small_cases v Hv) as [-> | [-> | [-> | [-> | [-> | [-> | [-> | ->]]]]]]];
    reflexivity.
Qed.

Lemma Timer0_WGM_read_write_enum (w : Timer0.WaveformGenerationMode) (m : Mem) :
  Timer0.WGM.read (Timer0.WGM.write (Timer0.to_u8 w) m) = Timer0.to_u8 w.
Proof. apply Timer0_WGM_read_write. destruct w; simpl; lia. Qed.

(** Timer2: the same selector on TCCR2A and TCCR2B. *)
Lemma Timer2_WGM_read_write (v : Z) (m : Mem) :
  0 <= v < 8 -> Timer2.WGM.read (Timer2.WGM.write v m) = v.
Proof.
  intros Hv. unfold Timer2.WGM.read, Timer2.WGM.write.
  unfold Io.WGM20, Io.WGM21, Io.WGM22.
  rewrite BitInRegister_read_write by (simpl; lia).
  rewrite (BitGroupInRegister_read_ext TCCR2A 0 1 _
             (BitGroupInRegister.write TCCR2A 0 1
                (u8 (Z.land (u8 v) 3)) m))
    by (apply BitInRegister_write_other; discriminate).
  rewrite BitGroupInRegister_read_write by (simpl; lia).
  rewrite low2_written_value.
  destruct (small_cases v Hv) as [-> | [-> | [-> | [-> | [-> | [-> | [-> | ->]]]]]]];
    reflexivity.
Qed.

Lemma Timer2_WGM_read_write_enum (w : Timer2.WaveformGenerationMode) (m : Mem) :
  Timer2.WGM.read (Timer2.WGM.write (Timer2.to_u8 w) m) = Timer2.to_u8 w.
Proof. apply Timer2_WGM_read_write. destruct w; simpl; lia. Qed.

(** Timer1: the value handed to the TCCR1B group is the LOW two bits of
    the mode moved up by two, so the group WGM13:WGM12 always receives 0
    and only the low two bits of the mode are read back. *)
Lemma Timer1_WGM_read_write_low (v : Z) (m : Mem) :
  Timer1.WGM.read (Timer1.WGM.write v m) = v mod 4.
Proof.
  unfold Timer1.WGM.read, Timer1.WGM.write.
  unfold Io.WGM10, Io.WGM11, Io.WGM12, Io.WGM13.
  rewrite BitGroupInRegister_read_write by (simpl; lia).
  rewrite (BitGroupInRegister_read_ext TCCR1A 0 1 _
             (BitGroupInRegister.write TCCR1A 0 1
                (u8 (Z.land (u8 v) 3)) m))
    by (apply BitGroupInRegister_write_other; discriminate).
  rewrite BitGroupInRegister_read_write by (simpl; lia).
  rewrite low2_written_value.
  assert (Hhi : Z.land (u8 (Z.shiftl (Z.land (u8 v) 3) 2)) (Z.ones (4 - 3 + 1))
                = 0).
  { apply Z.bits_inj'. intros i Hi.
    rewrite Z.land_spec, Z.bits_0, Z.testbit_ones_nonneg by lia.
    unfold u8. rewrite testbit_wrap by lia.
    change (4 - 3 + 1) with 2.
    destruct (Z.ltb_spec i 2); [| apply andb_false_r].
    rewrite Z.shiftl_spec_low by assumption.
    rewrite andb_false_r. reflexivity. }
  rewrite Hhi.
  assert (Hr : 0 <= v mod 4 < 4) by (apply Z.mod_pos_bound; lia).
  change (u8 (Z.shiftl 0 2)) with 0. rewrite Z.lor_0_l.
  unfold u8. apply wrap_small. change (2 ^ 8) with 256. lia.
Qed.

(** C1.  The claim fails on Timer1: writing CTC_1 (0b0100) and reading the
    selector back yields NORMAL (0), whatever the registers held before;
    on zeroed registers TCCR1B stays 0, so WGM12 is not set. *)
Theorem Timer1_WGM_write_CTC_1_reads_NORMAL (m : Mem) :
  Timer1.WGM.read (Timer1.WGM.write (Timer1.to_u8 Timer1.CTC_1) m)
  = Timer1.to_u8 Timer1.NORMAL
  /\ Timer1.to_u8 Timer1.CTC_1 <> Timer1.to_u8 Timer1.NORMAL
  /\ Register.read TCCR1B
       (Timer1.WGM.write (Timer1.to_u8 Timer1.CTC_1) zero_mem) = 0.
Proof.
  split; [| split].
  - rewrite Timer1_WGM_read_write_low. reflexivity.
  - discriminate.
  - reflexivity.
Qed.

(** ** The baud-rate helpers of USART0 *)

Ltac in_range :=
  change (2 ^ 32) with 4294967296 in *;
  change (2 ^ 16) with 65536 in *;
  change (2 ^ 8) with 256 in *;
  lia.

Lemma udiv_Some (x y : Z) : y <> 0 -> udiv x y = Some (x / y).
Proof.
  intros Hy. unfold udiv. destruct (Z.eqb_spec y 0); [contradiction | reflexivity].
Qed.

Lemma udiv_Some_inv (x y q : Z) : udiv x y = Some q -> y <> 0 /\ q = x / y.
Proof.
  unfold udiv. destruct (Z.eqb_spec y 0); intros H; [discriminate |].
  split; [assumption | congruence].
Qed.

Lemma u32_small (x : Z) : 0 <= x < 2 ^ 32 -> u32 x = x.
Proof. apply wrap_small. Qed.

Lemma u16_small (x : Z) : 0 <= x < 2 ^ 16 -> u16 x = x.
Proof. apply wrap_small. Qed.

Lemma uint_small (x : Z) : 0 <= x < 2 ^ 16 -> uint x = x.
Proof. apply wrap_small. Qed.

(** The divisor returned by either mode is a 16-bit value. *)
Lemma getUBRRValueSingleSpeed_range (F B n : Z) :
  USART0.getUBRRValueSingleSpeed F B = Some n -> 0 <= n < 2 ^ 16.
Proof.
  unfold USART0.getUBRRValueSingleSpeed.
  destruct (udiv _ _); simpl; intros H; [| discriminate].
  injection H as <-. apply wrap_range. lia.
Qed.

Lemma getUBRRValueDoubleSpeed_range (F B n : Z) :
  USART0.getUBRRValueDoubleSpeed F B = Some n -> 0 <= n < 2 ^ 16.
Proof.
  unfold USART0.getUBRRValueDoubleSpeed.
  destruct (udiv _ _); simpl; intros H; [| discriminate].
  injection H as <-. apply wrap_range. lia.
Qed.

(** Single speed, no wrap-around: the quotient and the divisor. *)
Lemma getUBRRValueSingleSpeed_exact (F B : Z) :
  0 < B -> 8 * B <= F -> F + 8 * B < 2 ^ 32 -> F < 1048568 * B ->
  USART0.getUBRRValueSingleSpeed F B = Some ((F + 8 * B) / (16 * B) - 1)
  /\ 1 <= (F + 8 * B) / (16 * B) <= 65536.
Proof.
  intros HB HF Hov Hq.
  assert (H1 : 1 <= (F + 8 * B) / (16 * B)).
  { apply Z.div_le_lower_bound; lia. }
  assert (H2 : (F + 8 * B) / (16 * B) < 65537).
  { apply Z.div_lt_upper_bound; lia. }
  split; [| lia].
  unfold USART0.getUBRRValueSingleSpeed.
  replace (B * 8) with (8 * B) by lia. replace (B * 16) with (16 * B) by lia.
  rewrite (u32_small (8 * B)) by in_range.
  rewrite (u32_small (F + 8 * B)) by in_range.
  rewrite (u32_small (16 * B)) by in_range.
  rewrite udiv_Some by lia. simpl.
  rewrite u32_small by in_range. rewrite u16_small by in_range.
  reflexivity.
Qed.

(** Double speed, no wrap-around: the bias is the whole divisor [8*B], so
    the result is the truncated quotient [F / (8*B)]. *)
Lemma getUBRRValueDoubleSpeed_exact (F B : Z) :
  0 < B -> 0 <= F -> F + 8 * B < 2 ^ 32 -> F < 524288 * B ->
  USART0.getUBRRValueDoubleSpeed F B = Some (F / (8 * B))
  /\ 0 <= F / (8 * B) < 65536.
Proof.
  intros HB HF Hov Hq.
  assert (H1 : 0 <= F / (8 * B)) by (apply Z.div_pos; lia).
  assert (H2 : F / (8 * B) < 65536) by (apply Z.div_lt_upper_bound; lia).
  split; [| lia].
  unfold USART0.getUBRRValueDoubleSpeed.
  replace (B * 8) with (8 * B) by lia.
  rewrite (u32_small (8 * B)) by in_range.
  rewrite (u32_small (F + 8 * B)) by in_range.
  rewrite udiv_Some by lia. simpl.
  replace (F + 8 * B) with (F + 1 * (8 * B)) by lia.
  rewrite Z.div_add by lia.
  rewrite u32_small by in_range. rewrite u16_small by in_range.
  f_equal. lia.
Qed.

(** For single speed the code's divisor is the specification's. *)
Lemma getUBRRValueSingleSpeed_is_spec_divisor (F B : Z) :
  0 < B -> 8 * B <= F -> F + 8 * B < 2 ^ 32 -> F < 1048568 * B ->
  USART0.getUBRRValueSingleSpeed F B = Some (USART0.spec_divisor 16 F B).
Proof.
  intros HB HF Hov Hq.
  destruct (getUBRRValueSingleSpeed_exact F B HB HF Hov Hq) as [-> _].
  unfold USART0.spec_divisor.
  replace (B * 16) with (B * 8 * 2) by lia. rewrite Z.div_mul by lia.
  do 3 f_equal; lia.
Qed.

(** The achieved rate, when [ticks * (N + 1)] fits the 16 bits on which it
    is formed. *)
Lemma getRealBaudRateSingleSpeed_exact (F B n : Z) :
  USART0.getUBRRValueSingleSpeed F B = Some n -> n < 4095 ->
  USART0.getRealBaudRateSingleSpeed F B = Some (USART0.spec_achieved 16 F n).
Proof.
  intros Hn Hlt. pose proof (getUBRRValueSingleSpeed_range F B n Hn) as Hr.
  unfold USART0.getRealBaudRateSingleSpeed. rewrite Hn. simpl.
  rewrite (uint_small (n + 1)) by in_range.
  rewrite uint_small by in_range.
  rewrite udiv_Some by lia. reflexivity.
Qed.

Lemma getRealBaudRateDoubleSpeed_exact (F B n : Z) :
  USART0.getUBRRValueDoubleSpeed F B = Some n -> n < 8191 ->
  USART0.getRealBaudRateDoubleSpeed F B = Some (USART0.spec_achieved 8 F n).
Proof.
  intros Hn Hlt. pose proof (getUBRRValueDoubleSpeed_range F B n Hn) as Hr.
  unfold USART0.getRealBaudRateDoubleSpeed. rewrite Hn. simpl.
  rewrite (uint_small (n + 1)) by in_range.
  rewrite uint_small by in_range.
  rewrite udiv_Some by lia. reflexivity.
Qed.

(** C2.  The claim fails for double speed: at F = 16 MHz and B = 115200
    the code returns 17, the divisor of the specification (bias
    [B*ticks/2]) is 16; the single-speed helper agrees with the
    specification there.  With 17 the achieved rate is 111111, with 16 it
    would be 117647. *)
Theorem getUBRRValueDoubleSpeed_bias_not_half :
  USART0.getUBRRValueDoubleSpeed 16000000 115200 = Some 17
  /\ USART0.spec_divisor 8 16000000 115200 = 16
  /\ USART0.getUBRRValueSingleSpeed 16000000 115200
     = Some (USART0.spec_divisor 16 16000000 115200)
  /\ USART0.getRealBaudRateDoubleSpeed 16000000 115200 = Some 111111
  /\ USART0.spec_achieved 8 16000000 16 = 117647.
Proof. repeat split. Qed.

(** The product [16 * (N + 1)] is formed on 16 bits: with the divisor 4097
    it is 32 instead of 65568, and the achieved rate of the code is 500000
    where the exact quotient is 244. *)
Example getRealBaudRateSingleSpeed_wraps_on_16_bits :
  USART0.getUBRRValueSingleSpeed 16000000 244 = Some 4097
  /\ USART0.getRealBaudRateSingleSpeed 16000000 244 = Some 500000
  /\ USART0.spec_achieved 16 16000000 4097 = 244.
Proof. repeat split. Qed.

(** C3.  At F = 16 MHz and B = 9600 single speed is selected and the
    divisor is 103. *)
Theorem solver_16MHz_9600 :
  USART0.getDoubleSpeed 16000000 9600 = Some false
  /\ USART0.getUBRRValue 16000000 9600 = Some 103.
Proof. split; reflexivity. Qed.

(** At B = 115200 the two errors of the code are equal (36 per mille), so
    the tie goes to single speed. *)
Example solver_16MHz_115200 :
  USART0.getBaudRateErrorSingleSpeed 16000000 115200 = Some 36
  /\ USART0.getBaudRateErrorDoubleSpeed 16000000 115200 = Some 36
  /\ USART0.getDoubleSpeed 16000000 115200 = Some false
  /\ USART0.getUBRRValue 16000000 115200 = Some 8.
Proof. repeat split. Qed.

(** ** Selection of the sampling mode *)

Lemma getUBRRValue_range (F B n : Z) :
  USART0.getUBRRValue F B = Some n -> 0 <= n < 2 ^ 16.
Proof.
  unfold USART0.getUBRRValue.
  destruct (USART0.getDoubleSpeed F B) as [[|] |]; simpl; intros H.
  - eapply getUBRRValueDoubleSpeed_range; eassumption.
  - eapply getUBRRValueSingleSpeed_range; eassumption.
  - discriminate.
Qed.

Lemma init_writes_UBRR_and_U2X (c : USART0.Config) (m : Mem) (F B n : Z)
  (ds : bool) :
  USART0.getUBRRValue F B = Some n -> USART0.getDoubleSpeed F B = Some ds ->
  exists m', USART0.init F B c m = Some m'
    /\ Register.read UBRR0 m' = n
    /\ BitInRegister.read UCSR0A Io.U2X0 m' = ds.
Proof.
  intros Hn Hds. pose proof (getUBRRValue_range F B n Hn) as Hr.
  unfold USART0.init. rewrite Hn. simpl. rewrite Hds. simpl.
  eexists. split; [reflexivity |]. split.
  - rewrite !BitGroupInRegister_write_other by discriminate.
    rewrite !BitInRegister_write_other by discriminate.
    rewrite read_write_same. apply wrap_small. exact Hr.
  - unfold BitInRegister.read.
    rewrite !BitGroupInRegister_write_other by discriminate.
    rewrite !BitInRegister_write_other by discriminate.
    apply (BitInRegister_read_write UCSR0A Io.U2X0).
    unfold Io.U2X0; simpl; lia.
Qed.

(** The shape of the selection for every pair of inputs: double speed is
    selected exactly when both errors have a result and the double-speed
    one is strictly smaller, single speed exactly when both have a result
    and it is not; [getUBRRValue] follows the flag; and [init] has a
    result only together with the two helpers. *)
Theorem getDoubleSpeed_selects_smaller_error
  (F B : Z) (c : USART0.Config) (m : Mem) :
  (USART0.getDoubleSpeed F B = Some true <->
     exists d s, USART0.getBaudRateErrorDoubleSpeed F B = Some d
              /\ USART0.getBaudRateErrorSingleSpeed F B = Some s /\ d < s)
  /\ (USART0.getDoubleSpeed F B = Some false <->
     exists d s, USART0.getBaudRateErrorDoubleSpeed F B = Some d
              /\ USART0.getBaudRateErrorSingleSpeed F B = Some s /\ s <= d)
  /\ USART0.getUBRRValue F B
     = match USART0.getDoubleSpeed F B with
       | Some true => USART0.getUBRRValueDoubleSpeed F B
       | Some false => USART0.getUBRRValueSingleSpeed F B
       | None => None
       end
  /\ match USART0.init F B c m with
     | Some m' =>
         USART0.getUBRRValue F B = Some (Register.read UBRR0 m')
         /\ USART0.getDoubleSpeed F B
            = Some (BitInRegister.read UCSR0A Io.U2X0 m')
     | None =>
         USART0.getUBRRValue F B = None \/ USART0.getDoubleSpeed F B = None
     end.
Proof.
  split; [| split; [| split]].
  - unfold USART0.getDoubleSpeed.
    destruct (USART0.getBaudRateErrorDoubleSpeed F B) as [d |];
      destruct (USART0.getBaudRateErrorSingleSpeed F B) as [s |]; simpl;
      split; try discriminate;
      try (intros (d' & s' & Hd & Hs & _); discriminate).
    + intros H. exists d, s. repeat split.
      injection H as H. apply Z.ltb_lt. exact H.
    + intros (d' & s' & Hd & Hs & Hlt).
      injection Hd as <-. injection Hs as <-.
      f_equal. apply Z.ltb_lt. exact Hlt.
  - unfold USART0.getDoubleSpeed.
    destruct (USART0.getBaudRateErrorDoubleSpeed F B) as [d |];
      destruct (USART0.getBaudRateErrorSingleSpeed F B) as [s |]; simpl;
      split; try discriminate;
      try (intros (d' & s' & Hd & Hs & _); discriminate).
    + intros H. exists d, s. repeat split.
      injection H as H. apply Z.ltb_ge. exact H.
    + intros (d' & s' & Hd & Hs & Hle).
      injection Hd as <-. injection Hs as <-.
      f_equal. apply Z.ltb_ge. exact Hle.
  - unfold USART0.getUBRRValue.
    destruct (USART0.getDoubleSpeed F B) as [[|] |]; reflexivity.
  - destruct (USART0.getUBRRValue F B) as [n |] eqn:Hn.
    + destruct (USART0.getDoubleSpeed F B) as [ds |] eqn:Hds.
      * destruct (init_writes_UBRR_and_U2X c m F B n ds Hn Hds)
          as (m' & -> & <- & <-).
        split; reflexivity.
      * unfold USART0.getUBRRValue in Hn. rewrite Hds in Hn. discriminate.
    + unfold USART0.init. rewrite Hn. simpl. left. reflexivity.
Qed.

(** C4, as stated, fails: with B = 0 the error helpers divide by zero, so
    no mode is selected, [getUBRRValue] returns no divisor and [init]
    writes no pair. *)
Lemma solver_selects_nothing_at_B_0 :
  USART0.getDoubleSpeed 16000000 0 = None
  /\ USART0.getUBRRValue 16000000 0 = None
  /\ USART0.init 16000000 0 config_8N1 zero_mem = None
  /\ ~ init_writes_selected_pair 16000000 0 config_8N1 zero_mem.
Proof.
  split; [reflexivity |]. split; [reflexivity |]. split; [reflexivity |].
  intros (n & ds & m' & Hn & _). discriminate.
Qed.

Lemma getBaudRateErrorSingleSpeed_Some_divisor (F B s : Z) :
  USART0.getBaudRateErrorSingleSpeed F B = Some s ->
  exists ns, USART0.getUBRRValueSingleSpeed F B = Some ns.
Proof.
  unfold USART0.getBaudRateErrorSingleSpeed,
    USART0.getRealBaudRateSingleSpeed.
  destruct (USART0.getUBRRValueSingleSpeed F B) as [ns |];
    [eauto | discriminate].
Qed.

Lemma getBaudRateErrorDoubleSpeed_Some_divisor (F B d : Z) :
  USART0.getBaudRateErrorDoubleSpeed F B = Some d ->
  exists nd, USART0.getUBRRValueDoubleSpeed F B = Some nd.
Proof.
  unfold USART0.getBaudRateErrorDoubleSpeed,
    USART0.getRealBaudRateDoubleSpeed.
  destruct (USART0.getUBRRValueDoubleSpeed F B) as [nd |];
    [eauto | discriminate].
Qed.

(** C4, amended.  For all inputs F and B for which both error helpers
    have a result, [d] for double and [s] for single speed: both divisor
    helpers have a result; double speed is selected if and only if
    [d < s] (a tie selects single speed); [getUBRRValue] returns the
    divisor of exactly the mode so selected; and [init] has a result that
    holds this divisor in UBRR0 and this flag in the U2X0 bit. *)
Theorem solver_selection_consistent
  (F B d s : Z) (c : USART0.Config) (m : Mem) :
  USART0.getBaudRateErrorDoubleSpeed F B = Some d ->
  USART0.getBaudRateErrorSingleSpeed F B = Some s ->
  exists nd ns ds,
    USART0.getUBRRValueDoubleSpeed F B = Some nd
    /\ USART0.getUBRRValueSingleSpeed F B = Some ns
    /\ USART0.getDoubleSpeed F B = Some ds
    /\ (ds = true <-> d < s)
    /\ USART0.getUBRRValue F B = Some (if ds then nd else ns)
    /\ exists m', USART0.init F B c m = Some m'
         /\ Register.read UBRR0 m' = (if ds then nd else ns)
         /\ BitInRegister.read UCSR0A Io.U2X0 m' = ds
         /\ init_writes_selected_pair F B c m.
Proof.
  intros Hd Hs.
  destruct (getBaudRateErrorDoubleSpeed_Some_divisor F B d Hd) as [nd Hnd].
  destruct (getBaudRateErrorSingleSpeed_Some_divisor F B s Hs) as [ns Hns].
  assert (Hds : USART0.getDoubleSpeed F B = Some (d <? s)).
  { unfold USART0.getDoubleSpeed. rewrite Hd, Hs. reflexivity. }
  assert (Hn : USART0.getUBRRValue F B = Some (if d <? s then nd else ns)).
  { unfold USART0.getUBRRValue. rewrite Hds. cbn [mbind option_bind].
    destruct (d <? s); assumption. }
  destruct (init_writes_UBRR_and_U2X c m F B _ _ Hn Hds)
    as (m' & Hinit & Hubrr & Hu2x).
  exists nd, ns, (d <? s).
  split; [exact Hnd |]. split; [exact Hns |]. split; [exact Hds |].
  split; [apply Z.ltb_lt |]. split; [exact Hn |].
  exists m'. split; [exact Hinit |]. split; [exact Hubrr |].
  split; [exact Hu2x |].
  exists (if d <? s then nd else ns), (d <? s), m'.
  repeat split; assumption.
Qed.

(** Both outcomes of the selection at a 16 MHz clock: 57600 selects
    double speed (errors 8 against 21) with divisor 34, 9600 selects
    single speed (errors 3 against 1) with divisor 103. *)
Lemma solver_selection_consistent_witness :
  (exists m', USART0.init 16000000 57600 config_8N1 zero_mem = Some m'
     /\ Register.read UBRR0 m' = 34
     /\ BitInRegister.read UCSR0A Io.U2X0 m' = true)
  /\ (exists m', USART0.init 16000000 9600 config_8N1 zero_mem = Some m'
     /\ Register.read UBRR0 m' = 103
     /\ BitInRegister.read UCSR0A Io.U2X0 m' = false).
Proof.
  split.
  - destruct (solver_selection_consistent 16000000 57600 8 21
                config_8N1 zero_mem eq_refl eq_refl)
      as (nd & ns & ds & Hnd & Hns & Hds & _ & _ & m' & Hinit & Hu & Hx & _).
    assert (End : nd = 34) by (vm_compute in Hnd; congruence).
    assert (Eds : ds = true) by (vm_compute in Hds; congruence).
    exists m'. split; [exact Hinit |]. split.
    + rewrite Hu, Eds. exact End.
    + rewrite Hx. exact Eds.
  - destruct (solver_selection_consistent 16000000 9600 3 1
                config_8N1 zero_mem eq_refl eq_refl)
      as (nd & ns & ds & Hnd & Hns & Hds & _ & _ & m' & Hinit & Hu & Hx & _).
    assert (Ens : ns = 103) by (vm_compute in Hns; congruence).
    assert (Eds : ds = false) by (vm_compute in Hds; congruence).
    exists m'. split; [exact Hinit |]. split.
    + rewrite Hu, Eds. exact Ens.
    + rewrite Hx. exact Eds.
Defined.

(** ** The relative error *)

(** A defined achieved rate is non-negative, and the requested rate is
    then positive. *)
Lemma getRealBaudRateSingleSpeed_Some_inv (F B a : Z) :
  0 <= F -> 0 <= B ->
  USART0.getRealBaudRateSingleSpeed F B = Some a -> 0 <= a /\ 0 < B.
Proof.
  intros HF HB. unfold USART0.getRealBaudRateSingleSpeed,
    USART0.getUBRRValueSingleSpeed.
  destruct (udiv _ (u32 (B * 16))) as [q |] eqn:Eq; simpl; [| discriminate].
  intros Ha. apply udiv_Some_inv in Eq as [Hnz _].
  apply udiv_Some_inv in Ha as [Hd ->].
  pose proof (wrap_range int_bits (16 * uint (u16 (u32 (q - 1)) + 1))) as Hw.
  split.
  - apply Z.div_pos; [assumption |]. unfold uint in *. unfold int_bits in *. lia.
  - destruct (Z.eq_dec B 0) as [-> | Hne]; [| lia].
    exfalso. apply Hnz. reflexivity.
Qed.

Lemma getRealBaudRateDoubleSpeed_Some_inv (F B a : Z) :
  0 <= F -> 0 <= B ->
  USART0.getRealBaudRateDoubleSpeed F B = Some a -> 0 <= a /\ 0 < B.
Proof.
  intros HF HB. unfold USART0.getRealBaudRateDoubleSpeed,
    USART0.getUBRRValueDoubleSpeed.
  destruct (udiv _ (u32 (B * 8))) as [q |] eqn:Eq; simpl; [| discriminate].
  intros Ha. apply udiv_Some_inv in Eq as [Hnz _].
  apply udiv_Some_inv in Ha as [Hd ->].
  pose proof (wrap_range int_bits (8 * uint (u16 (u32 (q - 1)) + 1))) as Hw.
  split.
  - apply Z.div_pos; [assumption |]. unfold uint in *. unfold int_bits in *. lia.
  - destruct (Z.eq_dec B 0) as [-> | Hne]; [| lia].
    exfalso. apply Hnz. reflexivity.
Qed.

(** The error expression shared by the two helpers, without wrap-around. *)
Lemma error_expression_exact (a B : Z) :
  1 <= a -> 1 <= B -> Z.max a B * 1000 < 2 ^ 32 ->
  (if B <? a
   then q ← udiv (u32 (a * 1000)) B; Some (u32 (q - 1000))
   else q ← udiv (u32 (B * 1000)) a; Some (u32 (q - 1000)))
  = Some (USART0.spec_error a B)
  /\ 0 <= USART0.spec_error a B.
Proof.
  intros Ha HB Hmax. unfold USART0.spec_error.
  assert (Hlow : forall x y, 1 <= y -> y <= x -> 1000 <= x * 1000 / y).
  { intros x y Hy Hxy. apply Z.div_le_lower_bound; lia. }
  assert (Hup : forall x y, 1 <= y -> 0 <= x -> x * 1000 / y <= x * 1000).
  { intros x y Hy Hx. apply Z.div_le_upper_bound; [lia |]. nia. }
  destruct (Z.ltb_spec B a) as [Hlt | Hge].
  - pose proof (Hlow a B HB ltac:(lia)). pose proof (Hup a B HB ltac:(lia)).
    rewrite (u32_small (a * 1000)) by in_range.
    rewrite udiv_Some by lia. simpl.
    rewrite u32_small by in_range. split; [reflexivity | lia].
  - pose proof (Hlow B a Ha Hge). pose proof (Hup B a Ha ltac:(lia)).
    rewrite (u32_small (B * 1000)) by in_range.
    rewrite udiv_Some by lia. simpl.
    rewrite u32_small by in_range. split; [reflexivity | lia].
Qed.

(** C5, as stated, fails: at F = 8, B = 1 the achieved rate is defined
    (it is 0) in both modes, and the error divides by it. *)
Lemma getBaudRateError_undefined_at_zero_rate :
  USART0.getRealBaudRateSingleSpeed 8 1 = Some 0
  /\ USART0.getBaudRateErrorSingleSpeed 8 1 = None
  /\ ~ error_is_spec_error USART0.getRealBaudRateSingleSpeed
         USART0.getBaudRateErrorSingleSpeed 8 1.
Proof.
  split; [reflexivity |]. split; [reflexivity |].
  intros H. destruct (H 0 eq_refl) as [H0 _]. discriminate.
Qed.

(** The multiplication by 1000 is carried out on 32 bits: at F = 160 MHz,
    B = 10 MHz the achieved rate is the requested one, and the computed
    error is not 0. *)
Example getBaudRateError_wraps :
  USART0.getRealBaudRateSingleSpeed 160000000 10000000 = Some 10000000
  /\ USART0.getBaudRateErrorSingleSpeed 160000000 10000000 = Some 4294966437
  /\ USART0.spec_error 10000000 10000000 = 0.
Proof. repeat split. Qed.

(** C5, amended.  For each mode and all unsigned 32-bit F and B for which
    the achieved rate [a] is defined and not 0 and neither [a*1000] nor
    [B*1000] leaves the 32-bit range, the computed error is
    [a*1000/B - 1000] when [a > B] and [B*1000/a - 1000] otherwise, in
    exact truncating arithmetic, and it is non-negative. *)
Theorem getBaudRateError_exact (F B : Z) :
  is_uint32 F -> is_uint32 B ->
  (forall a, USART0.getRealBaudRateSingleSpeed F B = Some a ->
     a <> 0 -> Z.max a B * 1000 < 2 ^ 32 ->
     USART0.getBaudRateErrorSingleSpeed F B = Some (USART0.spec_error a B)
     /\ 0 <= USART0.spec_error a B)
  /\ (forall a, USART0.getRealBaudRateDoubleSpeed F B = Some a ->
     a <> 0 -> Z.max a B * 1000 < 2 ^ 32 ->
     USART0.getBaudRateErrorDoubleSpeed F B = Some (USART0.spec_error a B)
     /\ 0 <= USART0.spec_error a B).
Proof.
  intros [HF _] [HB _]. split; intros a Ha Hnz Hmax.
  - destruct (getRealBaudRateSingleSpeed_Some_inv F B a HF HB Ha) as [H0 HB1].
    unfold USART0.getBaudRateErrorSingleSpeed. rewrite Ha. simpl.
    apply error_expression_exact; lia.
  - destruct (getRealBaudRateDoubleSpeed_Some_inv F B a HF HB Ha) as [H0 HB1].
    unfold USART0.getBaudRateErrorDoubleSpeed. rewrite Ha. simpl.
    apply error_expression_exact; lia.
Qed.

Lemma getBaudRateError_exact_witness :
  (USART0.getBaudRateErrorSingleSpeed 16000000 9600
   = Some (USART0.spec_error 9615 9600)
   /\ 0 <= USART0.spec_error 9615 9600)
  /\ (USART0.getBaudRateErrorDoubleSpeed 16000000 9600
      = Some (USART0.spec_error 9569 9600)
      /\ 0 <= USART0.spec_error 9569 9600).
Proof.
  assert (HF : is_uint32 16000000) by (unfold is_uint32; in_range).
  assert (HB : is_uint32 9600) by (unfold is_uint32; in_range).
  destruct (getBaudRateError_exact 16000000 9600 HF HB) as [Hs Hd].
  split.
  - apply (Hs 9615); [reflexivity | lia | in_range].
  - apply (Hd 9569); [reflexivity | lia | in_range].
Defined.

(** ** Totality of the solver *)

(** C6, as stated, fails: with B = 0 the first division of either divisor
    helper has the divisor [0 * 16] resp. [0 * 8], and no pair is
    returned. *)
Lemma solver_divides_by_zero_at_B_0 :
  USART0.getUBRRValueSingleSpeed 16000000 0 = None
  /\ USART0.getUBRRValueDoubleSpeed 16000000 0 = None
  /\ ~ solver_returns_pair 16000000 0.
Proof.
  split; [reflexivity |]. split; [reflexivity |].
  intros (n & ds & Hn & _). discriminate.
Qed.

(** With F = 0 the divisor helper wraps to 0xFFFF and the achieved rate
    divides by [16 * 0]. *)
Example solver_divides_by_zero_at_F_0 :
  USART0.getUBRRValueSingleSpeed 0 9600 = Some 65535
  /\ USART0.getRealBaudRateSingleSpeed 0 9600 = None
  /\ USART0.getUBRRValue 0 9600 = None.
Proof. repeat split. Qed.

Lemma achieved_rate_positive (F B q t : Z) :
  2 <= B -> 8 * B <= F -> 0 < t -> 0 < q -> q * (t * B) <= F + 8 * B ->
  t * q <= F.
Proof.
  intros HB HF Ht Hq Hle.
  destruct (Z.le_gt_cases (t * q) F) as [H | H]; [assumption |].
  exfalso.
  assert (H1 : (F + 1) * B <= t * q * B) by (apply Z.mul_le_mono_nonneg_r; lia).
  assert (H2 : 8 * B * (B - 1) <= F * (B - 1))
    by (apply Z.mul_le_mono_nonneg_r; lia).
  nia.
Qed.

Lemma error_expression_defined (a B : Z) :
  a <> 0 -> B <> 0 ->
  exists e,
    (if B <? a
     then q ← udiv (u32 (a * 1000)) B; Some (u32 (q - 1000))
     else q ← udiv (u32 (B * 1000)) a; Some (u32 (q - 1000)))
    = Some e.
Proof.
  intros Ha HB. destruct (B <? a); rewrite udiv_Some by assumption;
    simpl; eexists; reflexivity.
Qed.

Lemma single_speed_defined (F B : Z) :
  2 <= B -> 8 * B <= F -> F < 65528 * B -> F + 8 * B < 2 ^ 32 ->
  exists n a e,
    USART0.getUBRRValueSingleSpeed F B = Some n
    /\ USART0.getRealBaudRateSingleSpeed F B = Some a
    /\ USART0.getBaudRateErrorSingleSpeed F B = Some e
    /\ n < 4095 /\ 1 <= a.
Proof.
  intros HB HF Hq Hov.
  destruct (getUBRRValueSingleSpeed_exact F B) as [Hn [Hq1 _]]; try lia.
  set (q := (F + 8 * B) / (16 * B)) in *.
  assert (Hq2 : q < 4096) by (apply Z.div_lt_upper_bound; lia).
  assert (Hmul : q * (16 * B) <= F + 8 * B).
  { rewrite Z.mul_comm. apply Z.mul_div_le. lia. }
  assert (Hpos : 16 * q <= F) by (apply (achieved_rate_positive F B q 16); lia).
  pose proof (getRealBaudRateSingleSpeed_exact F B (q - 1) Hn ltac:(lia)) as Ha.
  unfold USART0.spec_achieved in Ha.
  replace (q - 1 + 1) with q in Ha by lia.
  assert (Ha1 : 1 <= F / (16 * q)) by (apply Z.div_le_lower_bound; lia).
  destruct (error_expression_defined (F / (16 * q)) B) as [e He]; try lia.
  exists (q - 1), (F / (16 * q)), e.
  split; [exact Hn |]. split; [exact Ha |]. split; [| lia].
  unfold USART0.getBaudRateErrorSingleSpeed. rewrite Ha. simpl. exact He.
Qed.

Lemma double_speed_defined (F B : Z) :
  2 <= B -> 8 * B <= F -> F < 65528 * B -> F + 8 * B < 2 ^ 32 ->
  exists n a e,
    USART0.getUBRRValueDoubleSpeed F B = Some n
    /\ USART0.getRealBaudRateDoubleSpeed F B = Some a
    /\ USART0.getBaudRateErrorDoubleSpeed F B = Some e
    /\ n < 8191 /\ 1 <= a.
Proof.
  intros HB HF Hq Hov.
  destruct (getUBRRValueDoubleSpeed_exact F B) as [Hn [Hq0 _]]; try lia.
  set (n := F / (8 * B)) in *.
  assert (Hn1 : 1 <= n) by (apply Z.div_le_lower_bound; lia).
  assert (Hn2 : n < 8191) by (apply Z.div_lt_upper_bound; lia).
  assert (Hmul : (n + 1) * (8 * B) <= F + 8 * B).
  { assert (8 * B * n <= F) by (apply Z.mul_div_le; lia). lia. }
  assert (Hpos : 8 * (n + 1) <= F)
    by (apply (achieved_rate_positive F B (n + 1) 8); lia).
  pose proof (getRealBaudRateDoubleSpeed_exact F B n Hn Hn2) as Ha.
  unfold USART0.spec_achieved in Ha.
  assert (Ha1 : 1 <= F / (8 * (n + 1))) by (apply Z.div_le_lower_bound; lia).
  destruct (error_expression_defined (F / (8 * (n + 1))) B) as [e He]; try lia.
  exists n, (F / (8 * (n + 1))), e.
  split; [exact Hn |]. split; [exact Ha |]. split; [| lia].
  unfold USART0.getBaudRateErrorDoubleSpeed. rewrite Ha. simpl. exact He.
Qed.

(** C6, amended.  For every pair with [2 <= B], [8*B <= F < 65528*B] and
    [F + 8*B < 2^32], every division of the six helpers has a non-zero
    divisor: each helper has a result, the divisors are at most 4094 resp.
    8190, the achieved rates are at least 1, and a (divisor, speed-flag)
    pair is returned. *)
Theorem solver_total_in_range (F B : Z) :
  2 <= B -> 8 * B <= F -> F < 65528 * B -> F + 8 * B < 2 ^ 32 ->
  (exists n a e,
     USART0.getUBRRValueSingleSpeed F B = Some n
     /\ USART0.getRealBaudRateSingleSpeed F B = Some a
     /\ USART0.getBaudRateErrorSingleSpeed F B = Some e
     /\ n < 4095 /\ 1 <= a)
  /\ (exists n a e,
     USART0.getUBRRValueDoubleSpeed F B = Some n
     /\ USART0.getRealBaudRateDoubleSpeed F B = Some a
     /\ USART0.getBaudRateErrorDoubleSpeed F B = Some e
     /\ n < 8191 /\ 1 <= a)
  /\ solver_returns_pair F B.
Proof.
  intros HB HF Hq Hov.
  pose proof (single_speed_defined F B HB HF Hq Hov) as Hs.
  pose proof (double_speed_defined F B HB HF Hq Hov) as Hd.
  split; [exact Hs |]. split; [exact Hd |].
  destruct Hs as (ns & as_ & es & Hns & _ & Hes & _).
  destruct Hd as (nd & ad & ed & Hnd & _ & Hed & _).
  unfold solver_returns_pair, USART0.getUBRRValue, USART0.getDoubleSpeed.
  rewrite Hes, Hed. simpl.
  destruct (ed <? es); simpl; eauto.
Qed.

Lemma solver_total_in_range_witness : solver_returns_pair 16000000 9600.
Proof.
  apply (solver_total_in_range 16000000 9600); in_range.
Defined.

(** ** EEPROM: the single-byte interface *)

Lemma getBufferPointer_mod (pos : Z) :
  EEPROM.getBufferPointer pos = pos mod 1024.
Proof.
  unfold EEPROM.getBufferPointer, EEPROM.capacity.
  change (1024 - 1) with (Z.ones 10). rewrite Z.land_ones by lia.
  reflexivity.
Qed.

(** C9.  For every position (in particular every 16-bit one) and every
    data byte, [write] and [read] access the 1024-byte buffer at index
    [pos mod 1024], which lies inside the buffer: both have a result, the
    written byte is read back at the same position, the buffer keeps its
    length and every other cell keeps its contents. *)
Theorem EEPROM_byte_access_in_bounds (pos d : Z) (buf : list Z) :
  length buf = Z.to_nat EEPROM.capacity ->
  EEPROM.getBufferPointer pos = pos mod 1024
  /\ 0 <= EEPROM.getBufferPointer pos < EEPROM.capacity
  /\ EEPROM.read pos buf = buf !! Z.to_nat (pos mod 1024)
  /\ is_Some (EEPROM.read pos buf)
  /\ EEPROM.write pos d buf = Some (<[ Z.to_nat (pos mod 1024) := d ]> buf)
  /\ (forall buf', EEPROM.write pos d buf = Some buf' ->
        length buf' = length buf
        /\ EEPROM.read pos buf' = Some d
        /\ forall j : nat, j <> Z.to_nat (pos mod 1024) -> buf' !! j = buf !! j).
Proof.
  intros Hlen.
  assert (Hr : 0 <= pos mod 1024 < 1024) by (apply Z.mod_pos_bound; lia).
  assert (Hidx : (Z.to_nat (pos mod 1024) < length buf)%nat).
  { rewrite Hlen. unfold EEPROM.capacity. lia. }
  assert (Hrd : forall b : list Z,
             EEPROM.read pos b = b !! Z.to_nat (pos mod 1024)).
  { intros b. unfold EEPROM.read, EEPROM.eeprom_read_byte.
    rewrite getBufferPointer_mod.
    destruct (decide (0 <= pos mod 1024)); [reflexivity | lia]. }
  assert (Hwr : EEPROM.write pos d buf
                = Some (<[ Z.to_nat (pos mod 1024) := d ]> buf)).
  { unfold EEPROM.write, EEPROM.eeprom_write_byte.
    rewrite getBufferPointer_mod.
    destruct (decide (0 <= pos mod 1024 < Z.of_nat (length buf)));
      [reflexivity | lia]. }
  split; [apply getBufferPointer_mod |].
  split; [rewrite getBufferPointer_mod; unfold EEPROM.capacity; lia |].
  split; [apply Hrd |].
  split; [rewrite Hrd; apply lookup_lt_is_Some_2; exact Hidx |].
  split; [exact Hwr |].
  intros buf' Hbuf'. rewrite Hwr in Hbuf'. injection Hbuf' as <-.
  split; [apply length_insert |].
  split.
  - rewrite Hrd. apply list_lookup_insert_eq. exact Hidx.
  - intros j Hj. apply list_lookup_insert_ne. congruence.
Qed.

(** A position beyond the capacity wraps around: 1029 addresses cell 5. *)
Lemma EEPROM_byte_access_in_bounds_witness :
  EEPROM.getBufferPointer 1029 = 5
  /\ EEPROM.read 1029 (replicate 1024 0) = Some 0
  /\ EEPROM.write 1029 7 (replicate 1024 0)
     = Some (<[ 5%nat := 7 ]> (replicate 1024 0)).
Proof.
  destruct (EEPROM_byte_access_in_bounds 1029 7 (replicate 1024 0))
    as (Hp & _ & Hr & _ & Hw & _).
  - reflexivity.
  - split; [exact Hp |]. split; [rewrite Hr; reflexivity | exact Hw].
Defined.

(** ** GPIOSubPort: the data-direction bits *)

Lemma testbit_255 (i : Z) : Z.testbit 255 i = (0 <=? i) && (i <? 8).
Proof. change 255 with (Z.ones 8). apply Z.testbit_ones. lia. Qed.

(** [setAsInput] clears exactly the bits of the group. *)
Lemma GPIOSubPort_setAsInput_bits
  (p : GPIO.Port) (first last : Z) (m : Mem) (i : Z) :
  0 <= first <= last -> last < 8 -> 0 <= i < 8 ->
  Z.testbit (Register.read (GPIO.DDR p)
               (GPIO.GPIOSubPort.setAsInput p first last m)) i
  = if (first <=? i) && (i <=? last) then false
    else Z.testbit (Register.read (GPIO.DDR p) m) i.
Proof.
  intros Hr Hl Hi. unfold GPIO.GPIOSubPort.setAsInput.
  rewrite BitGroupInRegister_write_bits by lia.
  rewrite Z.bits_0, orb_false_r.
  assert (Hw : width (GPIO.DDR p) = 8) by (destruct p; reflexivity).
  rewrite Hw. destruct (Z.ltb_spec i 8); [| lia].
  destruct ((first <=? i) && (i <=? last)); simpl.
  - apply andb_false_r.
  - apply andb_true_r.
Qed.

(** [setAsOutput] hands the 8-bit value 0xFF to the group write.  With
    the group write as section 4.3 words it, the value is ORed in from
    [first] upwards.  What this says about the bits above [last] rests on
    that wording: [register_access.h] decides whether bits of the value
    beyond the field are discarded. *)
Lemma GPIOSubPort_setAsOutput_bits
  (p : GPIO.Port) (first last : Z) (m : Mem) (i : Z) :
  0 <= first <= last -> last < 8 -> 0 <= i < 8 ->
  Z.testbit (Register.read (GPIO.DDR p)
               (GPIO.GPIOSubPort.setAsOutput p first last m)) i
  = if first <=? i then true
    else Z.testbit (Register.read (GPIO.DDR p) m) i.
Proof.
  intros Hr Hl Hi. unfold GPIO.GPIOSubPort.setAsOutput.
  rewrite BitGroupInRegister_write_bits by lia.
  rewrite testbit_255.
  assert (Hw : width (GPIO.DDR p) = 8) by (destruct p; reflexivity).
  rewrite Hw. destruct (Z.ltb_spec i 8); [| lia].
  destruct (Z.leb_spec first i), (Z.leb_spec i last),
    (Z.leb_spec 0 (i - first)), (Z.ltb_spec (i - first) 8);
    simpl; try lia;
    try reflexivity; try apply orb_true_r;
    rewrite ?orb_false_r, ?andb_true_r; reflexivity.
Qed.


(** * Further properties of the drivers *)

(** ** Accessors on disjoint bits of one register, or on two registers *)

Lemma BitGroupInRegister_read_write_disjoint
  (r : Reg) (lo hi lo' hi' v : Z) (m : Mem) :
  0 <= lo <= hi -> hi < width r -> 0 <= lo' <= hi' ->
  hi < lo' \/ hi' < lo -> 0 <= v < 2 ^ (hi' - lo' + 1) ->
  BitGroupInRegister.read r lo hi (BitGroupInRegister.write r lo' hi' v m)
  = BitGroupInRegister.read r lo hi m.
Proof.
  intros Hr Hw Hr' Hdis Hv. apply Z.bits_inj'. intros i Hi.
  rewrite !BitGroupInRegister_read_bits by assumption.
  destruct (Z.leb_spec (i + lo) hi) as [Hin | Hout].
  - rewrite BitGroupInRegister_write_frame by lia. reflexivity.
  - rewrite !andb_false_r. reflexivity.
Qed.

Lemma BitGroupInRegister_read_write_other_reg
  (r r' : Reg) (lo hi lo' hi' v : Z) (m : Mem) :
  r' <> r ->
  BitGroupInRegister.read r lo hi (BitGroupInRegister.write r' lo' hi' v m)
  = BitGroupInRegister.read r lo hi m.
Proof.
  intros Hne. apply BitGroupInRegister_read_ext.
  apply BitGroupInRegister_write_other. assumption.
Qed.

Lemma BitGroupInRegister_read_bit_write_disjoint
  (r : Reg) (lo hi b : Z) (v : bool) (m : Mem) :
  0 <= lo <= hi -> hi < width r -> 0 <= b -> ~ lo <= b <= hi ->
  BitGroupInRegister.read r lo hi (BitInRegister.write r b v m)
  = BitGroupInRegister.read r lo hi m.
Proof.
  intros Hr Hw Hb Hdis. apply Z.bits_inj'. intros i Hi.
  rewrite !BitGroupInRegister_read_bits by assumption.
  destruct (Z.leb_spec (i + lo) hi) as [Hin | Hout].
  - rewrite BitInRegister_write_bits by assumption.
    destruct (Z.ltb_spec (i + lo) (width r)); [| lia].
    destruct (Z.eqb_spec (i + lo) b); [lia | reflexivity].
  - rewrite !andb_false_r. reflexivity.
Qed.

Lemma BitGroupInRegister_read_bit_write_other_reg
  (r r' : Reg) (lo hi b : Z) (v : bool) (m : Mem) :
  r' <> r ->
  BitGroupInRegister.read r lo hi (BitInRegister.write r' b v m)
  = BitGroupInRegister.read r lo hi m.
Proof.
  intros Hne. apply BitGroupInRegister_read_ext.
  apply BitInRegister_write_other. assumption.
Qed.

Lemma BitInRegister_read_group_write_disjoint
  (r : Reg) (b lo hi v : Z) (m : Mem) :
  0 <= b < width r -> 0 <= lo <= hi -> ~ lo <= b <= hi ->
  0 <= v < 2 ^ (hi - lo + 1) ->
  BitInRegister.read r b (BitGroupInRegister.write r lo hi v m)
  = BitInRegister.read r b m.
Proof.
  intros Hb Hr Hdis Hv. unfold BitInRegister.read.
  apply BitGroupInRegister_write_frame; assumption.
Qed.

Lemma BitInRegister_read_group_write_other_reg
  (r r' : Reg) (b lo hi v : Z) (m : Mem) :
  r' <> r ->
  BitInRegister.read r b (BitGroupInRegister.write r' lo hi v m)
  = BitInRegister.read r b m.
Proof.
  intros Hne. unfold BitInRegister.read.
  rewrite BitGroupInRegister_write_other by assumption. reflexivity.
Qed.

Lemma BitInRegister_read_write_disjoint
  (r : Reg) (b b' : Z) (v : bool) (m : Mem) :
  0 <= b < width r -> 0 <= b' -> b <> b' ->
  BitInRegister.read r b (BitInRegister.write r b' v m)
  = BitInRegister.read r b m.
Proof.
  intros Hb Hb' Hne. unfold BitInRegister.read.
  rewrite BitInRegister_write_bits by assumption.
  destruct (Z.ltb_spec b (width r)); [| lia].
  destruct (Z.eqb_spec b b'); [contradiction | reflexivity].
Qed.

Lemma low2_value (v : Z) : u8 (Z.land (u8 v) 3) = v mod 4.
Proof.
  rewrite (land_u8_small v 3) by lia. rewrite (land_3_mod v).
  assert (Hr : 0 <= v mod 4 < 4) by (apply Z.mod_pos_bound; lia).
  unfold u8. apply wrap_small. change (2 ^ 8) with 256. lia.
Qed.

Lemma low2_value_range (v : Z) : 0 <= u8 (Z.land (u8 v) 3) < 2 ^ (1 - 0 + 1).
Proof.
  rewrite low2_value. change (2 ^ (1 - 0 + 1)) with 4.
  apply Z.mod_pos_bound. lia.
Qed.

(** ** Timer0 and Timer2: [init] *)

Lemma Timer0_WGM_read_ext (m1 m2 : Mem) :
  BitGroupInRegister.read TCCR0A 0 1 m1 = BitGroupInRegister.read TCCR0A 0 1 m2 ->
  BitInRegister.read TCCR0B 3 m1 = BitInRegister.read TCCR0B 3 m2 ->
  Timer0.WGM.read m1 = Timer0.WGM.read m2.
Proof.
  intros H1 H2. unfold Timer0.WGM.read, Io.WGM00, Io.WGM01, Io.WGM02.
  rewrite H1, H2. reflexivity.
Qed.

Lemma Timer2_WGM_read_ext (m1 m2 : Mem) :
  BitGroupInRegister.read TCCR2A 0 1 m1 = BitGroupInRegister.read TCCR2A 0 1 m2 ->
  BitInRegister.read TCCR2B 3 m1 = BitInRegister.read TCCR2B 3 m2 ->
  Timer2.WGM.read m1 = Timer2.WGM.read m2.
Proof.
  intros H1 H2. unfold Timer2.WGM.read, Io.WGM20, Io.WGM21, Io.WGM22.
  rewrite H1, H2. reflexivity.
Qed.

(** Side conditions of the accessor lemmas on concrete bit numbers. *)
Ltac field_side :=
  first
    [ discriminate
    | assumption
    | apply low2_value_range
    | solve [ cbn [width]; lia ]
    | solve [ cbn [width];
              change (2 ^ (2 - 0 + 1)) with 8;
              change (2 ^ (7 - 6 + 1)) with 4;
              change (2 ^ (5 - 4 + 1)) with 4;
              change (2 ^ (3 - 3 + 1)) with 2;
              change (2 ^ (2 - 1 + 1)) with 4;
              change (2 ^ (0 - 0 + 1)) with 2;
              lia ] ].

(** Moves a read of a bit group or of a bit inwards past writes that
    cannot affect it. *)
Ltac skip_writes :=
  repeat first
    [ rewrite BitGroupInRegister_read_write_other_reg by field_side
    | rewrite BitGroupInRegister_read_bit_write_other_reg by field_side
    | rewrite BitInRegister_read_group_write_other_reg by field_side
    | rewrite BitGroupInRegister_read_write_disjoint by field_side
    | rewrite BitGroupInRegister_read_bit_write_disjoint by field_side
    | rewrite BitInRegister_read_group_write_disjoint by field_side
    | rewrite BitInRegister_read_write_disjoint by field_side ].

(** Moves a read of a whole register or of one of its bits inwards past
    writes to other registers and to other bits. *)
Ltac skip_frames :=
  repeat first
    [ rewrite BitGroupInRegister_write_other by field_side
    | rewrite BitInRegister_write_other by field_side
    | rewrite BitGroupInRegister_write_frame by field_side ].

(** X1.  [Timer0::init] with values that fit their fields: the waveform
    mode, the clock select and both compare output modes read back as
    given; bits 2..3 of TCCR0A, bits 4..7 of TCCR0B and every other
    register keep their contents. *)
Theorem Timer0_init_establishes (wgm cs comA comB : Z) (m : Mem) :
  0 <= wgm < 8 -> 0 <= cs < 8 -> 0 <= comA < 4 -> 0 <= comB < 4 ->
  let m' := Timer0Driver.init wgm cs comA comB m in
  Timer0.WGM.read m' = wgm
  /\ Timer0Driver.CS.read m' = cs
  /\ Timer0Driver.COMA.read m' = comA
  /\ Timer0Driver.COMB.read m' = comB
  /\ (forall i, 2 <= i <= 3 ->
        Z.testbit (Register.read TCCR0A m') i
        = Z.testbit (Register.read TCCR0A m) i)
  /\ (forall i, 4 <= i <= 7 ->
        Z.testbit (Register.read TCCR0B m') i
        = Z.testbit (Register.read TCCR0B m) i)
  /\ (forall r, r <> TCCR0A -> r <> TCCR0B ->
        Register.read r m' = Register.read r m).
Proof.
  intros Hwgm Hcs HcomA HcomB m'. subst m'.
  unfold Timer0Driver.init, Timer0Driver.CS.read, Timer0Driver.COMA.read,
    Timer0Driver.COMB.read, Timer0Driver.CS.write, Timer0Driver.COMA.write,
    Timer0Driver.COMB.write.
  unfold IoExt.CS00, IoExt.CS02, IoExt.COM0A0, IoExt.COM0A1, IoExt.COM0B0,
    IoExt.COM0B1.
  split; [| split; [| split; [| split; [| split; [| split]]]]].
  - rewrite <- (Timer0_WGM_read_write wgm m Hwgm) at 2.
    apply Timer0_WGM_read_ext; skip_writes; reflexivity.
  - skip_writes. apply BitGroupInRegister_read_write_representable; field_side.
  - skip_writes. apply BitGroupInRegister_read_write_representable; field_side.
  - apply BitGroupInRegister_read_write_representable; field_side.
  - intros i Hi. unfold Timer0.WGM.write, Io.WGM00, Io.WGM01, Io.WGM02.
    skip_frames. reflexivity.
  - intros i Hi. unfold Timer0.WGM.write, Io.WGM00, Io.WGM01, Io.WGM02.
    skip_frames. rewrite BitInRegister_write_bits by lia.
    cbn [width]. destruct (Z.ltb_spec i 8); [| lia].
    destruct (Z.eqb_spec i 3); [lia |].
    skip_frames. reflexivity.
  - intros r HA HB. unfold Timer0.WGM.write.
    rewrite !BitGroupInRegister_write_other by congruence.
    rewrite BitInRegister_write_other by congruence.
    rewrite BitGroupInRegister_write_other by congruence. reflexivity.
Qed.

Lemma Timer0_init_establishes_witness :
  Timer0.WGM.read (Timer0Driver.init 7 5 2 1 sreg_I_only) = 7
  /\ Timer0Driver.CS.read (Timer0Driver.init 7 5 2 1 sreg_I_only) = 5
  /\ Register.read SREG (Timer0Driver.init 7 5 2 1 sreg_I_only)
     = Register.read SREG sreg_I_only.
Proof.
  pose proof (Timer0_init_establishes 7 5 2 1 sreg_I_only
    ltac:(lia) ltac:(lia) ltac:(lia) ltac:(lia))
    as (Hw & Hcs & _ & _ & _ & _ & Hregs).
  split; [exact Hw |]. split; [exact Hcs |].
  apply Hregs; discriminate.
Defined.

(** X2.  [Timer2::init]: as for Timer0, on TCCR2A and TCCR2B. *)
Theorem Timer2_init_establishes (wgm cs comA comB : Z) (m : Mem) :
  0 <= wgm < 8 -> 0 <= cs < 8 -> 0 <= comA < 4 -> 0 <= comB < 4 ->
  let m' := Timer2Driver.init wgm cs comA comB m in
  Timer2.WGM.read m' = wgm
  /\ Timer2Driver.CS.read m' = cs
  /\ Timer2Driver.COMA.read m' = comA
  /\ Timer2Driver.COMB.read m' = comB
  /\ (forall i, 2 <= i <= 3 ->
        Z.testbit (Register.read TCCR2A m') i
        = Z.testbit (Register.read TCCR2A m) i)
  /\ (forall i, 4 <= i <= 7 ->
        Z.testbit (Register.read TCCR2B m') i
        = Z.testbit (Register.read TCCR2B m) i)
  /\ (forall r, r <> TCCR2A -> r <> TCCR2B ->
        Register.read r m' = Register.read r m).
Proof.
  intros Hwgm Hcs HcomA HcomB m'. subst m'.
  unfold Timer2Driver.init, Timer2Driver.CS.read, Timer2Driver.COMA.read,
    Timer2Driver.COMB.read, Timer2Driver.CS.write, Timer2Driver.COMA.write,
    Timer2Driver.COMB.write.
  unfold IoExt.CS20, IoExt.CS22, IoExt.COM2A0, IoExt.COM2A1, IoExt.COM2B0,
    IoExt.COM2B1.
  split; [| split; [| split; [| split; [| split; [| split]]]]].
  - rewrite <- (Timer2_WGM_read_write wgm m Hwgm) at 2.
    apply Timer2_WGM_read_ext; skip_writes; reflexivity.
  - skip_writes. apply BitGroupInRegister_read_write_representable; field_side.
  - skip_writes. apply BitGroupInRegister_read_write_representable; field_side.
  - apply BitGroupInRegister_read_write_representable; field_side.
  - intros i Hi. unfold Timer2.WGM.write, Io.WGM20, Io.WGM21, Io.WGM22.
    skip_frames. reflexivity.
  - intros i Hi. unfold Timer2.WGM.write, Io.WGM20, Io.WGM21, Io.WGM22.
    skip_frames. rewrite BitInRegister_write_bits by lia.
    cbn [width]. destruct (Z.ltb_spec i 8); [| lia].
    destruct (Z.eqb_spec i 3); [lia |].
    skip_frames. reflexivity.
  - intros r HA HB. unfold Timer2.WGM.write.
    rewrite !BitGroupInRegister_write_other by congruence.
    rewrite BitInRegister_write_other by congruence.
    rewrite BitGroupInRegister_write_other by congruence. reflexivity.
Qed.

Lemma Timer2_init_establishes_witness :
  Timer2.WGM.read (Timer2Driver.init 2 7 0 3 zero_mem) = 2
  /\ Timer2Driver.COMB.read (Timer2Driver.init 2 7 0 3 zero_mem) = 3.
Proof.
  pose proof (Timer2_init_establishes 2 7 0 3 zero_mem
    ltac:(lia) ltac:(lia) ltac:(lia) ltac:(lia)) as (Hw & _ & _ & Hb & _).
  split; [exact Hw | exact Hb].
Defined.

(** X3.  [Timer1::init]: whatever the waveform mode, a clock select and
    compare output modes that fit their fields read back as given; bits
    2..3 of TCCR1A and every register other than TCCR1A and TCCR1B keep
    their contents. *)
Theorem Timer1_init_clock_and_outputs (wgm cs comA comB : Z) (m : Mem) :
  0 <= cs < 8 -> 0 <= comA < 4 -> 0 <= comB < 4 ->
  let m' := Timer1Driver.init wgm cs comA comB m in
  Timer1Driver.CS.read m' = cs
  /\ Timer1Driver.COMA.read m' = comA
  /\ Timer1Driver.COMB.read m' = comB
  /\ (forall i, 2 <= i <= 3 ->
        Z.testbit (Register.read TCCR1A m') i
        = Z.testbit (Register.read TCCR1A m) i)
  /\ (forall r, r <> TCCR1A -> r <> TCCR1B ->
        Register.read r m' = Register.read r m).
Proof.
  intros Hcs HcomA HcomB m'. subst m'.
  unfold Timer1Driver.init, Timer1Driver.CS.read, Timer1Driver.COMA.read,
    Timer1Driver.COMB.read, Timer1Driver.CS.write, Timer1Driver.COMA.write,
    Timer1Driver.COMB.write.
  unfold IoExt.CS10, IoExt.CS12, IoExt.COM1A0, IoExt.COM1A1, IoExt.COM1B0,
    IoExt.COM1B1.
  split; [| split; [| split; [| split]]].
  - skip_writes. apply BitGroupInRegister_read_write_representable; field_side.
  - skip_writes. apply BitGroupInRegister_read_write_representable; field_side.
  - apply BitGroupInRegister_read_write_representable; field_side.
  - intros i Hi. unfold Timer1.WGM.write, Io.WGM10, Io.WGM11, Io.WGM12,
      Io.WGM13.
    skip_frames. reflexivity.
  - intros r HA HB. unfold Timer1.WGM.write.
    rewrite !BitGroupInRegister_write_other by congruence. reflexivity.
Qed.

Lemma Timer1_init_clock_and_outputs_witness :
  Timer1Driver.CS.read (Timer1Driver.init 15 3 2 1 zero_mem) = 3
  /\ Timer1Driver.COMA.read (Timer1Driver.init 15 3 2 1 zero_mem) = 2
  /\ Timer1Driver.COMB.read (Timer1Driver.init 15 3 2 1 zero_mem) = 1.
Proof.
  pose proof (Timer1_init_clock_and_outputs 15 3 2 1 zero_mem
    ltac:(lia) ltac:(lia) ltac:(lia)) as (Hcs & Ha & Hb & _).
  split; [exact Hcs |]. split; [exact Ha | exact Hb].
Defined.

(** ** USART0: the frame format written by [init], and the switches *)

Lemma BitInRegister_write_frame
  (r : Reg) (b : Z) (v : bool) (m : Mem) (i : Z) :
  0 <= b -> 0 <= i < width r -> i <> b ->
  Z.testbit (Register.read r (BitInRegister.write r b v m)) i
  = Z.testbit (Register.read r m) i.
Proof.
  intros Hb Hi Hne. rewrite BitInRegister_write_bits by assumption.
  destruct (Z.ltb_spec i (width r)); [| lia].
  destruct (Z.eqb_spec i b); [contradiction | reflexivity].
Qed.

Ltac skip_bit_frames :=
  repeat first
    [ rewrite BitGroupInRegister_write_other by field_side
    | rewrite BitInRegister_write_other by field_side
    | rewrite BitGroupInRegister_write_frame by field_side
    | rewrite BitInRegister_write_frame by field_side ].

(** X4.  When the baud-rate helpers have a result and the configuration
    fits its fields, [USART0::init] has a result in which mode, parity,
    stop bits, character size and clock polarity read back from UCSR0C and
    the five enable flags read back from UCSR0B as configured; bits 0..2
    of UCSR0B, every bit of UCSR0A other than U2X0, and every register
    other than UBRR0, UCSR0A, UCSR0B and UCSR0C keep their contents. *)
Theorem USART0_init_frame_format
  (F B n : Z) (c : USART0.Config) (m : Mem) :
  USART0.getUBRRValue F B = Some n -> USART0Driver.fits c ->
  exists m', USART0.init F B c m = Some m'
    /\ USART0Driver.UMSEL_read m' = USART0.mode c
    /\ USART0Driver.UPM_read m' = USART0.parity c
    /\ USART0Driver.USBS_read m' = USART0.stopBits c
    /\ USART0Driver.UCSZ_read m' = USART0.characterSize c
    /\ USART0Driver.UCPOL_read m' = USART0.clockPolarity c
    /\ BitInRegister.read UCSR0B Io.RXCIE0 m' = USART0.rxInterruptEnabled c
    /\ BitInRegister.read UCSR0B Io.TXCIE0 m' = USART0.txInterruptEnabled c
    /\ BitInRegister.read UCSR0B Io.UDRIE0 m' = USART0.UDREInterruptEnabled c
    /\ BitInRegister.read UCSR0B Io.RXEN0 m' = USART0.rxEnabled c
    /\ BitInRegister.read UCSR0B Io.TXEN0 m' = USART0.txEnabled c
    /\ (forall i, 0 <= i <= 2 ->
          Z.testbit (Register.read UCSR0B m') i
          = Z.testbit (Register.read UCSR0B m) i)
    /\ (forall i, 0 <= i < 8 -> i <> Io.U2X0 ->
          Z.testbit (Register.read UCSR0A m') i
          = Z.testbit (Register.read UCSR0A m) i)
    /\ (forall r, r <> UBRR0 -> r <> UCSR0A -> r <> UCSR0B -> r <> UCSR0C ->
          Register.read r m' = Register.read r m).
Proof.
  intros Hn (Hmode & Hpar & Hstop & Hsize & Hpol).
  assert (Hds : exists ds, USART0.getDoubleSpeed F B = Some ds).
  { unfold USART0.getUBRRValue in Hn.
    destruct (USART0.getDoubleSpeed F B) as [ds |]; [eauto | discriminate]. }
  destruct Hds as [ds Hds].
  unfold USART0.init. rewrite Hn. cbn [mbind option_bind].
  rewrite Hds. cbn [mbind option_bind].
  eexists. split; [reflexivity |].
  unfold USART0Driver.UMSEL_read, USART0Driver.UPM_read,
    USART0Driver.USBS_read, USART0Driver.UCSZ_read, USART0Driver.UCPOL_read.
  unfold Io.UMSEL00, Io.UMSEL01, Io.UPM00, Io.UPM01, Io.USBS0, Io.UCSZ00,
    Io.UCSZ01, Io.UCPOL0, Io.RXCIE0, Io.TXCIE0, Io.UDRIE0, Io.RXEN0,
    Io.TXEN0, Io.U2X0.
  repeat match goal with |- _ /\ _ => split end.
  - skip_writes. apply BitGroupInRegister_read_write_representable; field_side.
  - skip_writes. apply BitGroupInRegister_read_write_representable; field_side.
  - skip_writes. apply BitGroupInRegister_read_write_representable; field_side.
  - skip_writes. apply BitGroupInRegister_read_write_representable; field_side.
  - apply BitGroupInRegister_read_write_representable; field_side.
  - skip_writes. apply BitInRegister_read_write. cbn [width]. lia.
  - skip_writes. apply BitInRegister_read_write. cbn [width]. lia.
  - skip_writes. apply BitInRegister_read_write. cbn [width]. lia.
  - skip_writes. apply BitInRegister_read_write. cbn [width]. lia.
  - skip_writes. apply BitInRegister_read_write. cbn [width]. lia.
  - intros i Hi. skip_bit_frames. reflexivity.
  - intros i Hi Hne. skip_bit_frames.
    rewrite read_write_other by discriminate. reflexivity.
  - intros r H1 H2 H3 H4.
    rewrite !BitGroupInRegister_write_other by congruence.
    rewrite !BitInRegister_write_other by congruence.
    apply read_write_other. congruence.
Qed.

Lemma USART0_init_frame_format_witness :
  exists m', USART0.init 16000000 9600
               (USART0.Build_Config true false false true false 0 3 2 1 0)
               sreg_I_only = Some m'
    /\ USART0Driver.UPM_read m' = 2
    /\ USART0Driver.UCSZ_read m' = 3
    /\ BitInRegister.read UCSR0B Io.TXEN0 m' = true.
Proof.
  destruct (USART0_init_frame_format 16000000 9600 103
              (USART0.Build_Config true false false true false 0 3 2 1 0)
              sreg_I_only)
    as (m' & Hinit & _ & Hupm & _ & Hsz & _ & _ & _ & _ & _ & Htx & _).
  - reflexivity.
  - unfold USART0Driver.fits. simpl. lia.
  - exists m'. split; [exact Hinit |]. split; [exact Hupm |].
    split; [exact Hsz | exact Htx].
Defined.

(** X5.  [startTransmission] sets the UDRIE0 bit and [stopTransmission]
    clears it; neither changes another bit of UCSR0B or another register,
    and a stop after a start leaves the register file that a stop alone
    leaves. *)
Theorem USART0_transmission_switch (m : Mem) :
  BitInRegister.read UCSR0B Io.UDRIE0 (USART0Driver.startTransmission m) = true
  /\ BitInRegister.read UCSR0B Io.UDRIE0 (USART0Driver.stopTransmission m)
     = false
  /\ (forall i, 0 <= i < 8 -> i <> Io.UDRIE0 ->
        Z.testbit (Register.read UCSR0B (USART0Driver.startTransmission m)) i
        = Z.testbit (Register.read UCSR0B m) i
        /\ Z.testbit (Register.read UCSR0B (USART0Driver.stopTransmission m)) i
           = Z.testbit (Register.read UCSR0B m) i)
  /\ (forall r, r <> UCSR0B ->
        Register.read r (USART0Driver.startTransmission m) = Register.read r m
        /\ Register.read r (USART0Driver.stopTransmission m)
           = Register.read r m)
  /\ (forall r,
        Register.read r
          (USART0Driver.stopTransmission (USART0Driver.startTransmission m))
        = Register.read r (USART0Driver.stopTransmission m)).
Proof.
  unfold USART0Driver.startTransmission, USART0Driver.stopTransmission,
    USART0Driver.enableUDREInterrupt, USART0Driver.disableUDREInterrupt.
  change (BitInRegister.set UCSR0B Io.UDRIE0)
    with (BitInRegister.write UCSR0B Io.UDRIE0 true).
  change (BitInRegister.clear UCSR0B Io.UDRIE0)
    with (BitInRegister.write UCSR0B Io.UDRIE0 false).
  unfold Io.UDRIE0.
  split; [apply BitInRegister_read_write; cbn [width]; lia |].
  split; [apply BitInRegister_read_write; cbn [width]; lia |].
  split; [| split].
  - intros i Hi Hne.
    split; apply BitInRegister_write_frame; cbn [width]; lia.
  - intros r Hr. split; apply BitInRegister_write_other; congruence.
  - intros r. destruct (decide (r = UCSR0B)) as [-> | Hne].
    + apply Z.bits_inj'. intros i Hi.
      rewrite !BitInRegister_write_bits by lia.
      destruct (i <? width UCSR0B), (i =? 5); reflexivity.
    + rewrite !BitInRegister_write_other by congruence. reflexivity.
Qed.

Lemma USART0_transmission_switch_witness :
  Z.testbit (Register.read UCSR0B (USART0Driver.startTransmission zero_mem)) 3
  = Z.testbit (Register.read UCSR0B zero_mem) 3
  /\ Register.read SREG (USART0Driver.stopTransmission sreg_I_only)
     = Register.read SREG sreg_I_only.
Proof.
  split.
  - destruct (USART0_transmission_switch zero_mem) as (_ & _ & Hb & _).
    apply (Hb 3); [lia | discriminate].
  - destruct (USART0_transmission_switch sreg_I_only) as (_ & _ & _ & Hr & _).
    apply (Hr SREG). discriminate.
Defined.

(** ** GPIO: single pins and the direction set-up of the test program *)

(** X6.  [GPIOPin::setAsOutput] sets the DDR bit of its pin and
    [GPIOPin::setAsInput] clears it; no other bit of that DDR and no other
    register (so no pin of another port) changes. *)
Theorem GPIOPin_direction (p : GPIO.Port) (pin : Z) (m : Mem) :
  0 <= pin < 8 ->
  BitInRegister.read (GPIO.DDR p) pin (GPIODriver.GPIOPin.setAsOutput p pin m)
  = true
  /\ BitInRegister.read (GPIO.DDR p) pin (GPIODriver.GPIOPin.setAsInput p pin m)
     = false
  /\ (forall i, 0 <= i < 8 -> i <> pin ->
        Z.testbit (Register.read (GPIO.DDR p)
                     (GPIODriver.GPIOPin.setAsOutput p pin m)) i
        = Z.testbit (Register.read (GPIO.DDR p) m) i
        /\ Z.testbit (Register.read (GPIO.DDR p)
                        (GPIODriver.GPIOPin.setAsInput p pin m)) i
           = Z.testbit (Register.read (GPIO.DDR p) m) i)
  /\ (forall r, r <> GPIO.DDR p ->
        Register.read r (GPIODriver.GPIOPin.setAsOutput p pin m)
        = Register.read r m
        /\ Register.read r (GPIODriver.GPIOPin.setAsInput p pin m)
           = Register.read r m).
Proof.
  intros Hpin.
  assert (Hw : width (GPIO.DDR p) = 8) by (destruct p; reflexivity).
  unfold GPIODriver.GPIOPin.setAsOutput, GPIODriver.GPIOPin.setAsInput.
  change (BitInRegister.set (GPIO.DDR p) pin m)
    with (BitInRegister.write (GPIO.DDR p) pin true m).
  change (BitInRegister.clear (GPIO.DDR p) pin m)
    with (BitInRegister.write (GPIO.DDR p) pin false m).
  split; [apply BitInRegister_read_write; lia |].
  split; [apply BitInRegister_read_write; lia |].
  split.
  - intros i Hi Hne. split; apply BitInRegister_write_frame; lia.
  - intros r Hr. split; apply BitInRegister_write_other; congruence.
Qed.

Lemma GPIOPin_direction_witness :
  BitInRegister.read DDRC 4 (GPIODriver.GPIOPin.setAsOutput GPIO.C 4 zero_mem)
  = true
  /\ Register.read DDRB (GPIODriver.GPIOPin.setAsOutput GPIO.C 4 zero_mem)
     = Register.read DDRB zero_mem.
Proof.
  pose proof (GPIOPin_direction GPIO.C 4 zero_mem ltac:(lia))
    as (Hset & _ & _ & Hregs).
  split; [exact Hset |]. apply (Hregs DDRB). discriminate.
Defined.

Lemma test_set_direction_DDRC_bit (m : Mem) (i : Z) :
  0 <= i <= 5 ->
  Z.testbit (Register.read DDRC (GPIODriver.test_set_direction m)) i
  = (i <=? 1) || (i =? 4).
Proof.
  intros Hi. unfold GPIODriver.test_set_direction,
    GPIODriver.GPIOPin.setAsInput, GPIODriver.GPIOPin.setAsOutput,
    GPIO.GPIOSubPort.setAsInput, GPIO.GPIOSubPort.setAsOutput,
    GPIODriver.GPIOPort.setAsInput, GPIODriver.GPIOPort.setAsOutput.
  cbn [GPIO.DDR].
  match goal with
  | |- context [BitInRegister.clear DDRC 5 ?x] =>
      change (BitInRegister.clear DDRC 5 x)
        with (BitInRegister.write DDRC 5 false x)
  end.
  match goal with
  | |- context [BitInRegister.set DDRC 4 ?x] =>
      change (BitInRegister.set DDRC 4 x)
        with (BitInRegister.write DDRC 4 true x)
  end.
  rewrite !BitInRegister_write_bits by lia.
  rewrite !BitGroupInRegister_write_bits by lia.
  rewrite testbit_255, Z.bits_0. cbn [width].
  match goal with
  | |- context [Z.testbit (Register.read DDRC ?x) i] =>
      generalize (Z.testbit (Register.read DDRC x) i)
  end.
  intros b.
  assert (Hc : i = 0 \/ i = 1 \/ i = 2 \/ i = 3 \/ i = 4 \/ i = 5) by lia.
  destruct Hc as [-> | [-> | [-> | [-> | [-> | ->]]]]]; destruct b; reflexivity.
Qed.

(** X7.  The direction set-up of the GPIO test program, from any register
    file: port B is all outputs, port D all inputs, and on port C the pins
    0, 1 and 4 are outputs and the pins 2, 3 and 5 inputs; no register
    other than DDRB, DDRC and DDRD changes. *)
Theorem GPIO_test_set_direction (m : Mem) :
  let m' := GPIODriver.test_set_direction m in
  Register.read DDRB m' = 255
  /\ Register.read DDRD m' = 0
  /\ Z.testbit (Register.read DDRC m') 0 = true
  /\ Z.testbit (Register.read DDRC m') 1 = true
  /\ Z.testbit (Register.read DDRC m') 2 = false
  /\ Z.testbit (Register.read DDRC m') 3 = false
  /\ Z.testbit (Register.read DDRC m') 4 = true
  /\ Z.testbit (Register.read DDRC m') 5 = false
  /\ (forall r, r <> DDRB -> r <> DDRC -> r <> DDRD ->
        Register.read r m' = Register.read r m).
Proof.
  intros m'.
  assert (Hother : forall r, r <> DDRC ->
    Register.read r m'
    = Register.read r (GPIODriver.GPIOPort.setAsInput GPIO.D
                         (GPIODriver.GPIOPort.setAsOutput GPIO.B m))).
  { intros r Hr. subst m'. unfold GPIODriver.test_set_direction,
      GPIODriver.GPIOPin.setAsInput, GPIODriver.GPIOPin.setAsOutput,
      GPIO.GPIOSubPort.setAsInput, GPIO.GPIOSubPort.setAsOutput.
    cbn [GPIO.DDR].
    unfold BitInRegister.clear, BitInRegister.set, BitGroupInRegister.write.
    rewrite !read_write_other by congruence. reflexivity. }
  split; [| split].
  - rewrite Hother by discriminate.
    unfold GPIODriver.GPIOPort.setAsInput, GPIODriver.GPIOPort.setAsOutput.
    cbn [GPIO.DDR]. rewrite read_write_other by discriminate.
    rewrite read_write_same. reflexivity.
  - rewrite Hother by discriminate.
    unfold GPIODriver.GPIOPort.setAsInput. cbn [GPIO.DDR].
    rewrite read_write_same. reflexivity.
  - subst m'.
    rewrite !test_set_direction_DDRC_bit by lia.
    repeat split.
    intros r HB HC HD. fold (GPIODriver.test_set_direction m).
    change (Register.read r (GPIODriver.test_set_direction m)
            = Register.read r m).
    pose proof (Hother r HC) as H. unfold GPIODriver.GPIOPort.setAsInput,
      GPIODriver.GPIOPort.setAsOutput in H. cbn [GPIO.DDR] in H.
    rewrite !read_write_other in H by congruence. exact H.
Qed.

Lemma GPIO_test_set_direction_witness :
  Register.read SREG (GPIODriver.test_set_direction sreg_I_only)
  = Register.read SREG sreg_I_only.
Proof.
  pose proof (GPIO_test_set_direction sreg_I_only)
    as (_ & _ & _ & _ & _ & _ & _ & _ & Hregs).
  apply (Hregs SREG); discriminate.
Defined.

(** ** EEPROM: positions and blocks *)

Lemma EEPROM_read_lookup (pos : Z) (buf : list Z) :
  EEPROM.read pos buf = buf !! Z.to_nat (pos mod 1024).
Proof.
  unfold EEPROM.read, EEPROM.eeprom_read_byte. rewrite getBufferPointer_mod.
  assert (Hr : 0 <= pos mod 1024 < 1024) by (apply Z.mod_pos_bound; lia).
  destruct (decide (0 <= pos mod 1024)); [reflexivity | lia].
Qed.

Lemma EEPROM_write_insert (pos d : Z) (buf : list Z) :
  length buf = Z.to_nat EEPROM.capacity ->
  EEPROM.write pos d buf = Some (<[ Z.to_nat (pos mod 1024) := d ]> buf).
Proof.
  intros Hlen. unfold EEPROM.write, EEPROM.eeprom_write_byte.
  rewrite getBufferPointer_mod.
  assert (Hr : 0 <= pos mod 1024 < 1024) by (apply Z.mod_pos_bound; lia).
  unfold EEPROM.capacity in Hlen.
  destruct (decide (0 <= pos mod 1024 < Z.of_nat (length buf)));
    [reflexivity | lia].
Qed.

(** X8.  Two positions address the same cell exactly when they are
    congruent modulo 1024: after a byte write at [pos], a read at [pos']
    returns the written byte when [pos'] is congruent to [pos] (for
    instance [pos + 1024]) and the previous contents of its cell
    otherwise. *)
Theorem EEPROM_positions_alias (pos pos' d : Z) (buf buf' : list Z) :
  length buf = Z.to_nat EEPROM.capacity ->
  EEPROM.write pos d buf = Some buf' ->
  EEPROM.read pos' buf'
  = if decide (pos' mod 1024 = pos mod 1024) then Some d
    else EEPROM.read pos' buf.
Proof.
  intros Hlen Hwr. rewrite EEPROM_write_insert in Hwr by assumption.
  injection Hwr as <-. rewrite !EEPROM_read_lookup.
  assert (Hr : 0 <= pos mod 1024 < 1024) by (apply Z.mod_pos_bound; lia).
  assert (Hr' : 0 <= pos' mod 1024 < 1024) by (apply Z.mod_pos_bound; lia).
  unfold EEPROM.capacity in Hlen.
  destruct (decide (pos' mod 1024 = pos mod 1024)) as [-> | Hne].
  - apply list_lookup_insert_eq. lia.
  - apply list_lookup_insert_ne. lia.
Qed.

Lemma EEPROM_positions_alias_witness :
  EEPROM.read (3 + 1024) (<[ 3%nat := 9 ]> (replicate 1024 0)) = Some 9
  /\ EEPROM.read 4 (<[ 3%nat := 9 ]> (replicate 1024 0))
     = EEPROM.read 4 (replicate 1024 0).
Proof.
  split.
  - apply (EEPROM_positions_alias 3 (3 + 1024) 9 (replicate 1024 0));
      reflexivity.
  - apply (EEPROM_positions_alias 3 4 9 (replicate 1024 0)); reflexivity.
Defined.

Lemma EEPROMBlock_write_inserts (pos n : Z) (data buf : list Z) :
  length buf = Z.to_nat EEPROM.capacity ->
  0 <= n <= Z.of_nat (length data) -> pos mod 1024 + n <= 1024 ->
  EEPROMBlock.write pos data n buf
  = Some (list_inserts (Z.to_nat (pos mod 1024)) (take (Z.to_nat n) data) buf).
Proof.
  intros Hlen Hn Hfit. unfold EEPROMBlock.write, EEPROMBlock.eeprom_write_block.
  rewrite getBufferPointer_mod.
  assert (Hr : 0 <= pos mod 1024 < 1024) by (apply Z.mod_pos_bound; lia).
  unfold EEPROM.capacity in Hlen.
  destruct (decide _) as [_ | Hno]; [reflexivity | lia].
Qed.

Lemma EEPROMBlock_read_take_drop (pos n : Z) (buf : list Z) :
  length buf = Z.to_nat EEPROM.capacity ->
  0 <= n -> pos mod 1024 + n <= 1024 ->
  EEPROMBlock.read pos n buf
  = Some (take (Z.to_nat n) (drop (Z.to_nat (pos mod 1024)) buf)).
Proof.
  intros Hlen Hn Hfit. unfold EEPROMBlock.read, EEPROMBlock.eeprom_read_block.
  rewrite getBufferPointer_mod.
  assert (Hr : 0 <= pos mod 1024 < 1024) by (apply Z.mod_pos_bound; lia).
  unfold EEPROM.capacity in Hlen.
  destruct (decide _) as [_ | Hno]; [reflexivity | lia].
Qed.

(** X9.  A block that fits between its wrapped start cell and the end of
    the buffer: the block write has a result, the buffer keeps its length,
    the block read at the same position returns the bytes written, and
    every cell outside the block keeps its contents. *)
Theorem EEPROM_block_round_trip (pos n : Z) (data buf : list Z) :
  length buf = Z.to_nat EEPROM.capacity ->
  0 <= n <= Z.of_nat (length data) -> pos mod 1024 + n <= 1024 ->
  exists buf',
    EEPROMBlock.write pos data n buf = Some buf'
    /\ length buf' = length buf
    /\ EEPROMBlock.read pos n buf' = Some (take (Z.to_nat n) data)
    /\ (forall j : nat,
          (j < Z.to_nat (pos mod 1024) \/ Z.to_nat (pos mod 1024 + n) <= j)%nat ->
          buf' !! j = buf !! j).
Proof.
  intros Hlen Hn Hfit.
  assert (Hr : 0 <= pos mod 1024 < 1024) by (apply Z.mod_pos_bound; lia).
  pose proof Hlen as Hlen'. unfold EEPROM.capacity in Hlen'.
  assert (Htk : length (take (Z.to_nat n) data) = Z.to_nat n).
  { apply length_take_le. lia. }
  eexists. split; [apply EEPROMBlock_write_inserts; assumption |].
  split; [apply length_inserts |]. split.
  - rewrite EEPROMBlock_read_take_drop
      by (rewrite ?length_inserts; first [assumption | lia]).
    f_equal. apply list_eq. intros k.
    destruct (decide (k < Z.to_nat n)%nat) as [Hk | Hk].
    + rewrite lookup_take_lt by assumption. rewrite lookup_drop.
      rewrite list_lookup_inserts by lia.
      f_equal. lia.
    + rewrite lookup_take_ge by lia.
      symmetry. apply lookup_ge_None_2. lia.
  - intros j [Hj | Hj].
    + apply list_lookup_inserts_lt. assumption.
    + apply list_lookup_inserts_ge. lia.
Qed.

Lemma EEPROM_block_round_trip_witness :
  exists buf',
    EEPROMBlock.write 1022 [7; 8] 2 (replicate 1024 0) = Some buf'
    /\ EEPROMBlock.read 1022 2 buf' = Some [7; 8].
Proof.
  destruct (EEPROM_block_round_trip 1022 2 [7; 8] (replicate 1024 0))
    as (buf' & Hw & _ & Hr & _).
  - reflexivity.
  - simpl. lia.
  - reflexivity.
  - exists buf'. split; [exact Hw | exact Hr].
Defined.

(** X10.  The block interface wraps its start position only: a block that
    runs past the last cell of the buffer has no result, for writing and
    for reading, although each of its bytes can be written through the
    single-byte interface at the positions [pos], [pos + 1], ... *)
Theorem EEPROM_block_does_not_wrap (pos n : Z) (data buf : list Z) :
  length buf = Z.to_nat EEPROM.capacity ->
  1024 < pos mod 1024 + n ->
  EEPROMBlock.write pos data n buf = None
  /\ EEPROMBlock.read pos n buf = None
  /\ (forall k d, is_Some (EEPROM.write (pos + k) d buf)).
Proof.
  intros Hlen Hover. pose proof Hlen as Hlen'.
  unfold EEPROM.capacity in Hlen'.
  split; [| split].
  - unfold EEPROMBlock.write, EEPROMBlock.eeprom_write_block.
    rewrite getBufferPointer_mod.
    destruct (decide _) as [Hyes | _]; [lia | reflexivity].
  - unfold EEPROMBlock.read, EEPROMBlock.eeprom_read_block.
    rewrite getBufferPointer_mod.
    destruct (decide _) as [Hyes | _]; [lia | reflexivity].
  - intros k d. rewrite EEPROM_write_insert by assumption. eauto.
Qed.

Lemma EEPROM_block_does_not_wrap_witness :
  EEPROMBlock.write 1023 [7; 8] 2 (replicate 1024 0) = None
  /\ is_Some (EEPROM.write (1023 + 1) 8 (replicate 1024 0)).
Proof.
  destruct (EEPROM_block_does_not_wrap 1023 2 [7; 8] (replicate 1024 0))
    as (Hw & _ & Hb).
  - reflexivity.
  - reflexivity.
  - split; [exact Hw | apply Hb].
Defined.

(** X11.  The two interfaces agree on a block that fits: after a block
    write, the single-byte read at [pos + k] returns the [k]-th byte of the
    data, and a block read returns the bytes that the single-byte reads at
    [pos], [pos + 1], ... return. *)
Theorem EEPROM_block_agrees_with_bytes (pos n : Z) (data buf : list Z) :
  length buf = Z.to_nat EEPROM.capacity ->
  0 <= n <= Z.of_nat (length data) -> pos mod 1024 + n <= 1024 ->
  (forall buf' k, EEPROMBlock.write pos data n buf = Some buf' ->
     0 <= k < n -> EEPROM.read (pos + k) buf' = data !! Z.to_nat k)
  /\ (forall l k, EEPROMBlock.read pos n buf = Some l ->
     0 <= k < n -> l !! Z.to_nat k = EEPROM.read (pos + k) buf).
Proof.
  intros Hlen Hn Hfit.
  assert (Hr : 0 <= pos mod 1024 < 1024) by (apply Z.mod_pos_bound; lia).
  pose proof Hlen as Hlen'. unfold EEPROM.capacity in Hlen'.
  assert (Hidx : forall k, 0 <= k < n ->
            (pos + k) mod 1024 = pos mod 1024 + k).
  { intros k Hk.
    rewrite Z.add_mod by lia. rewrite (Z.mod_small k 1024) by lia.
    apply Z.mod_small. lia. }
  split.
  - intros buf' k Hw Hk.
    rewrite EEPROMBlock_write_inserts in Hw by assumption.
    injection Hw as <-. rewrite EEPROM_read_lookup, Hidx by assumption.
    rewrite list_lookup_inserts
      by (rewrite ?length_take_le by lia; lia).
    rewrite lookup_take_lt by lia. f_equal. lia.
  - intros l k Hrd Hk.
    rewrite EEPROMBlock_read_take_drop in Hrd by (assumption || lia).
    injection Hrd as <-. rewrite EEPROM_read_lookup, Hidx by assumption.
    rewrite lookup_take_lt by lia. rewrite lookup_drop.
    f_equal. lia.
Qed.

Lemma EEPROM_block_agrees_with_bytes_witness :
  EEPROM.read (1022 + 1)
    (list_inserts 1022 [7; 8] (replicate 1024 0)) = Some 8.
Proof.
  pose proof (EEPROM_block_agrees_with_bytes 1022 2 [7; 8] (replicate 1024 0)
    eq_refl ltac:(simpl; lia) ltac:(rewrite Z.mod_small by lia; lia))
    as [Hw _].
  apply (Hw (list_inserts 1022 [7; 8] (replicate 1024 0)) 1);
    [reflexivity | lia].
Defined.

(** ** Atomic: the constructor, and guards at any nesting depth *)

(** X12.  Constructing an [Atomic] stores 0x80 when the interrupts were
    enabled and 0 when they were not, leaves the interrupts disabled, and
    changes neither one of the seven other bits of SREG nor any other
    register. *)
Theorem Atomic_ctor_frame (m : Mem) :
  let a := fst (Atomic.ctor m) in
  let m1 := snd (Atomic.ctor m) in
  Atomic.m_SREG a = (if interrupts_enabled m then 128 else 0)
  /\ interrupts_enabled m1 = false
  /\ (forall i, 0 <= i < Io.SREG_I ->
        Z.testbit (Register.read SREG m1) i
        = Z.testbit (Register.read SREG m) i)
  /\ (forall r, r <> SREG -> Register.read r m1 = Register.read r m).
Proof.
  intros a m1. split; [| split; [| split]].
  - apply Z.bits_inj'. intros i Hi. unfold a. rewrite testbit_snapshot.
    destruct (interrupts_enabled m).
    + rewrite andb_true_r. change 128 with (_BV 7).
      rewrite testbit_BV by lia. reflexivity.
    + rewrite andb_false_r, Z.bits_0. reflexivity.
  - apply interrupts_enabled_cli.
  - intros i Hi. apply cli_other_bits. assumption.
  - intros r Hr. unfold m1. cbn [snd Atomic.ctor]. unfold cli.
    change (BitInRegister.clear SREG Io.SREG_I m)
      with (BitInRegister.write SREG Io.SREG_I false m).
    apply BitInRegister_write_other. congruence.
Qed.

Lemma Atomic_ctor_frame_witness :
  Z.testbit (Register.read SREG (snd (Atomic.ctor sreg_I_only))) 0
  = Z.testbit (Register.read SREG sreg_I_only) 0
  /\ Register.read DDRB (snd (Atomic.ctor sreg_I_only))
     = Register.read DDRB sreg_I_only.
Proof.
  pose proof (Atomic_ctor_frame sreg_I_only) as (_ & _ & Hbits & Hregs).
  split.
  - apply (Hbits 0). unfold Io.SREG_I. lia.
  - apply (Hregs DDRB). discriminate.
Defined.

Lemma entry_interrupts_disabled (n : nat) (m : Mem) :
  interrupts_enabled (AtomicScope.entry (S n) m) = false.
Proof.
  revert m. induction n as [| k IH]; intros m.
  - apply interrupts_enabled_cli.
  - change (AtomicScope.entry (S (S k)) m)
      with (AtomicScope.entry (S k) (snd (Atomic.ctor m))).
    apply IH.
Qed.

(** X13.  Guards nest safely at every depth: when the guarded body does
    not change the interrupt-enable flag, the body of [n >= 1] nested
    guards starts with the interrupts disabled, the flag after the last
    release is the flag from before the first construction, and every
    register other than SREG is as the body left it. *)
Theorem Atomic_nesting_any_depth (n : nat) (body : Mem -> Mem) (m : Mem) :
  (forall x, interrupts_enabled (body x) = interrupts_enabled x) ->
  interrupts_enabled (AtomicScope.nested n body m) = interrupts_enabled m
  /\ (n <> O -> interrupts_enabled (AtomicScope.entry n m) = false)
  /\ (forall r, r <> SREG ->
        Register.read r (AtomicScope.nested n body m)
        = Register.read r (body (AtomicScope.entry n m))).
Proof.
  intros Hbody. split; [| split].
  - revert m. induction n as [| k IH]; intros m.
    + apply Hbody.
    + cbn [AtomicScope.nested]. unfold Atomic.ctor.
      rewrite interrupts_enabled_dtor, IH, interrupts_enabled_cli.
      pose proof (testbit_snapshot m Io.SREG_I) as Hs.
      unfold Atomic.ctor in Hs. cbn [fst] in Hs. rewrite Hs.
      rewrite Z.eqb_refl. reflexivity.
  - destruct n as [| k]; [congruence |].
    intros _. apply entry_interrupts_disabled.
  - intros r Hr. revert m. induction n as [| k IH]; intros m.
    + reflexivity.
    + cbn [AtomicScope.nested AtomicScope.entry]. unfold Atomic.ctor.
      cbn [snd]. unfold Atomic.dtor.
      rewrite read_write_other by congruence. apply IH.
Qed.

Lemma Atomic_nesting_any_depth_witness :
  interrupts_enabled
    (AtomicScope.nested 3 (Register.write TCCR0A 5) sreg_I_only)
  = interrupts_enabled sreg_I_only
  /\ interrupts_enabled (AtomicScope.entry 3 sreg_I_only) = false.
Proof.
  assert (Hbody : forall x,
    interrupts_enabled (Register.write TCCR0A 5 x) = interrupts_enabled x).
  { intros x. unfold interrupts_enabled.
    change (Register.write TCCR0A 5 x SREG)
      with (Register.read SREG (Register.write TCCR0A 5 x)).
    rewrite read_write_other by discriminate. reflexivity. }
  pose proof (Atomic_nesting_any_depth 3 (Register.write TCCR0A 5)
                sreg_I_only Hbody) as (Hflag & Hentry & _).
  split; [exact Hflag | apply Hentry; discriminate].
Defined.

(** ** USART0: when the two sampling modes coincide *)

(** X14.  For [2 <= B], [8*B <= F < 65528*B] and [F + 8*B < 2^32]: when
    the quotient [F / (8*B)] is odd, both modes divide the clock by the
    same number, so they achieve the same rate and have the same error,
    and the solver selects single speed with the single-speed divisor. *)
Theorem solver_tie_when_quotient_odd (F B : Z) :
  2 <= B -> 8 * B <= F -> F < 65528 * B -> F + 8 * B < 2 ^ 32 ->
  Z.odd (F / (8 * B)) = true ->
  USART0.getRealBaudRateSingleSpeed F B = USART0.getRealBaudRateDoubleSpeed F B
  /\ USART0.getBaudRateErrorSingleSpeed F B
     = USART0.getBaudRateErrorDoubleSpeed F B
  /\ USART0.getDoubleSpeed F B = Some false
  /\ USART0.getUBRRValue F B = Some ((F / (8 * B) - 1) / 2).
Proof.
  intros HB HF Hq Hov Hodd.
  destruct (getUBRRValueSingleSpeed_exact F B) as [Hns _]; try lia.
  destruct (getUBRRValueDoubleSpeed_exact F B) as [Hnd _]; try lia.
  set (q := F / (8 * B)) in *.
  assert (Hq1 : 1 <= q) by (apply Z.div_le_lower_bound; lia).
  assert (Hq2 : q < 8191) by (apply Z.div_lt_upper_bound; lia).
  apply Z.odd_spec in Hodd. destruct Hodd as [j Hj].
  assert (Hs : (F + 8 * B) / (16 * B) = j + 1).
  { replace (16 * B) with (8 * B * 2) by lia.
    rewrite <- Z.div_div by lia.
    replace (F + 8 * B) with (F + 1 * (8 * B)) by lia.
    rewrite Z.div_add by lia. fold q. rewrite Hj.
    replace (2 * j + 1 + 1) with ((j + 1) * 2) by lia.
    apply Z.div_mul. lia. }
  rewrite Hs in Hns. replace (j + 1 - 1) with j in Hns by lia.
  assert (Hreal : USART0.getRealBaudRateSingleSpeed F B
                  = USART0.getRealBaudRateDoubleSpeed F B).
  { rewrite (getRealBaudRateSingleSpeed_exact F B j Hns) by lia.
    rewrite (getRealBaudRateDoubleSpeed_exact F B q Hnd) by lia.
    unfold USART0.spec_achieved. do 2 f_equal. lia. }
  assert (Herr : USART0.getBaudRateErrorSingleSpeed F B
                 = USART0.getBaudRateErrorDoubleSpeed F B).
  { unfold USART0.getBaudRateErrorSingleSpeed,
      USART0.getBaudRateErrorDoubleSpeed. rewrite Hreal. reflexivity. }
  destruct (single_speed_defined F B HB HF Hq Hov)
    as (n & a & e & _ & _ & He & _).
  assert (Hds : USART0.getDoubleSpeed F B = Some false).
  { unfold USART0.getDoubleSpeed. rewrite <- Herr, He.
    cbn [mbind option_bind]. rewrite Z.ltb_irrefl. reflexivity. }
  split; [exact Hreal |]. split; [exact Herr |]. split; [exact Hds |].
  unfold USART0.getUBRRValue. rewrite Hds. cbn [mbind option_bind].
  rewrite Hns. f_equal. rewrite Hj.
  replace (2 * j + 1 - 1) with (j * 2) by lia.
  symmetry. apply Z.div_mul. lia.
Qed.

Lemma solver_tie_when_quotient_odd_witness :
  USART0.getDoubleSpeed 16000000 115200 = Some false
  /\ USART0.getUBRRValue 16000000 115200 = Some ((16000000 / (8 * 115200) - 1) / 2).
Proof.
  pose proof (solver_tie_when_quotient_odd 16000000 115200
    ltac:(lia) ltac:(lia) ltac:(lia) ltac:(in_range) eq_refl)
    as (_ & _ & Hds & Hn).
  split; [exact Hds | exact Hn].
Defined.

(** ** GPIOSubPort: what does not depend on the width of the written value *)

(** X15.  [GPIOSubPort::setAsInput] clears exactly the DDR bits
    [firstPin..lastPin] and keeps every other bit; [setAsOutput] sets each
    of the bits [firstPin..lastPin] and keeps every bit below [firstPin];
    neither changes another register. *)
Theorem GPIOSubPort_direction_in_group
  (p : GPIO.Port) (first last : Z) (m : Mem) :
  0 <= first <= last -> last < 8 ->
  (forall i, 0 <= i < 8 ->
     Z.testbit (Register.read (GPIO.DDR p)
                  (GPIO.GPIOSubPort.setAsInput p first last m)) i
     = if (first <=? i) && (i <=? last) then false
       else Z.testbit (Register.read (GPIO.DDR p) m) i)
  /\ (forall i, first <= i <= last ->
     Z.testbit (Register.read (GPIO.DDR p)
                  (GPIO.GPIOSubPort.setAsOutput p first last m)) i = true)
  /\ (forall i, 0 <= i < first ->
     Z.testbit (Register.read (GPIO.DDR p)
                  (GPIO.GPIOSubPort.setAsOutput p first last m)) i
     = Z.testbit (Register.read (GPIO.DDR p) m) i)
  /\ (forall r, r <> GPIO.DDR p ->
     Register.read r (GPIO.GPIOSubPort.setAsInput p first last m)
     = Register.read r m
     /\ Register.read r (GPIO.GPIOSubPort.setAsOutput p first last m)
        = Register.read r m).
Proof.
  intros Hr Hl. split; [| split; [| split]].
  - intros i Hi. apply GPIOSubPort_setAsInput_bits; assumption.
  - intros i Hi. rewrite GPIOSubPort_setAsOutput_bits by lia.
    destruct (Z.leb_spec first i); [reflexivity | lia].
  - intros i Hi. rewrite GPIOSubPort_setAsOutput_bits by lia.
    destruct (Z.leb_spec first i); [lia | reflexivity].
  - intros r Hne. unfold GPIO.GPIOSubPort.setAsInput,
      GPIO.GPIOSubPort.setAsOutput.
    split; apply BitGroupInRegister_write_other; congruence.
Qed.

Lemma GPIOSubPort_direction_in_group_witness :
  Z.testbit (Register.read DDRC
               (GPIO.GPIOSubPort.setAsOutput GPIO.C 2 3 zero_mem)) 3 = true
  /\ Z.testbit (Register.read DDRC
                  (GPIO.GPIOSubPort.setAsOutput GPIO.C 2 3 zero_mem)) 1
     = Z.testbit (Register.read DDRC zero_mem) 1
  /\ Register.read DDRB (GPIO.GPIOSubPort.setAsInput GPIO.C 2 3 zero_mem)
     = Register.read DDRB zero_mem.
Proof.
  pose proof (GPIOSubPort_direction_in_group GPIO.C 2 3 zero_mem
    ltac:(lia) ltac:(lia)) as (_ & Hset & Hlow & Hregs).
  split; [apply (Hset 3); lia |].
  split; [apply (Hlow 1); lia |].
  apply (Hregs DDRB). discriminate.
Defined.
